(** * chat_p2p: the tracker (peer registry) and the P2P node

    A shallow embedding of [backend/tracker/main.py] (with [models.py] and
    [schemas.py]), of [backend/peer/node.py] and of the endpoints of
    [backend/peer/api.py].

    Conventions.
    - A [datetime] is an integer number of microseconds ([Z]); the clock
      value read by [datetime.utcnow()] is an explicit argument.
    - The SQL table [peers] is the list of its rows in insertion order.
    - A coroutine is a function on an explicit state that either returns,
      raises, or stays suspended on an [await] that never completes.  One
      call runs from its start to that point with no other task in between,
      but for the receive loop that [disconnect_from_peer] wakes by closing
      the stream the loop reads from: that loop runs inside the call.  A
      receive loop woken in any other way is a call of its own.
    - What the network, the tracker and the clock do during a call is an
      explicit argument ([env], and the reads that arrive on a stream).
    - The observer's callbacks return: the ones [api.py] installs catch
      every exception.  [AsyncClient.aclose] and [Task.cancel] return. *)

From Stdlib Require Import ZArith String List Bool Lia.
Import ListNotations.
Local Open Scope string_scope.
Local Open Scope list_scope.
Local Open Scope Z_scope.

(* ================================================================== *)
(** * Part I. The tracker *)
(* ================================================================== *)

Module Tracker.

(** ** models.py *)

Record Peer := mkPeer {
  id : Z;                    (* Column(Integer, primary_key=True) *)
  username : string;         (* Column(String, unique=True, nullable=False) *)
  host : string;
  port : Z;
  is_active : bool;
  last_heartbeat : Z;
  created_at : Z
}.

(** ** schemas.py *)

Record PeerRegister := mkPeerRegister {
  reg_username : string;     (* username: str *)
  reg_host : string;         (* host: str *)
  reg_port : Z               (* port: int *)
}.

Record HeartbeatRequest := mkHeartbeatRequest {
  hb_username : string
}.

(** The table [peers]. *)
Definition table := list Peer.

(** What an endpoint produces: a value, an [HTTPException], or the
    [MultipleResultsFound] error of [scalar_one_or_none]. *)
Inductive response (A : Type) : Type :=
| Ok (a : A)
| HTTPException (status_code : Z) (detail : string)
| MultipleResultsFound.
Arguments Ok {A} a.
Arguments HTTPException {A} status_code detail.
Arguments MultipleResultsFound {A}.

(** [timedelta(minutes=m)] in microseconds. *)
Definition timedelta_minutes (m : Z) : Z := m * 60000000.

(** ** The ORM operations used by main.py *)

(** [select(Peer).where(Peer.username == u)] *)
Definition select_username (u : string) (db : table) : list Peer :=
  filter (fun p => String.eqb (username p) u) db.

(** [result.scalar_one_or_none()] *)
Definition scalar_one_or_none (rows : list Peer) : response (option Peer) :=
  match rows with
  | [] => Ok None
  | [p] => Ok (Some p)
  | _ :: _ :: _ => MultipleResultsFound
  end.

(** [db.commit()] after attributes of the loaded object [p] were assigned:
    an UPDATE of the row with [p]'s primary key. *)
Definition flush (p : Peer) (db : table) : table :=
  map (fun r => if id r =? id p then p else r) db.

(** The primary key given to an inserted row (SQLite: largest rowid + 1). *)
Definition next_id (db : table) : Z :=
  fold_right Z.max 0 (map id db) + 1.

(** [db.add(peer); db.commit()] *)
Definition add (p : Peer) (db : table) : table := db ++ [p].

Definition set_is_active (b : bool) (p : Peer) : Peer :=
  mkPeer (id p) (username p) (host p) (port p) b (last_heartbeat p) (created_at p).

Definition set_last_heartbeat (t : Z) (p : Peer) : Peer :=
  mkPeer (id p) (username p) (host p) (port p) (is_active p) t (created_at p).

Definition set_host (h : string) (p : Peer) : Peer :=
  mkPeer (id p) (username p) h (port p) (is_active p) (last_heartbeat p) (created_at p).

Definition set_port (n : Z) (p : Peer) : Peer :=
  mkPeer (id p) (username p) (host p) n (is_active p) (last_heartbeat p) (created_at p).

(** ** main.py *)

(** The rows selected by [cleanup_inactive_peers]:
    [Peer.last_heartbeat < threshold, Peer.is_active == True]. *)
Definition inactive_query (threshold : Z) (db : table) : list Peer :=
  filter (fun p => (last_heartbeat p <? threshold) && is_active p) db.

(** [cleanup_inactive_peers(db, threshold_minutes)] with the clock at [now]:
    the count returned and the table after the commit. *)
Definition cleanup_inactive_peers (now : Z) (threshold_minutes : Z) (db : table)
  : nat * table :=
  let threshold := now - timedelta_minutes threshold_minutes in
  let inactive_peers := inactive_query threshold db in
  let db' := fold_left (fun d peer => flush (set_is_active false peer) d)
                       inactive_peers db in
  (length inactive_peers, db').

(** [POST /register].  [now] is the clock read by the handler; the column
    default of [created_at] is given the same reading. *)
Definition register_peer (now : Z) (peer_data : PeerRegister) (db : table)
  : response Peer * table :=
  match scalar_one_or_none (select_username (reg_username peer_data) db) with
  | Ok (Some peer) =>
      let peer := set_host (reg_host peer_data) peer in
      let peer := set_port (reg_port peer_data) peer in
      let peer := set_is_active true peer in
      let peer := set_last_heartbeat now peer in
      (Ok peer, flush peer db)
  | Ok None =>
      let peer := mkPeer (next_id db) (reg_username peer_data)
                         (reg_host peer_data) (reg_port peer_data) true now now in
      (Ok peer, add peer db)
  | HTTPException c d => (HTTPException c d, db)
  | MultipleResultsFound => (MultipleResultsFound, db)
  end.

(** [POST /heartbeat]: the body returned is [(message, username)]. *)
Definition heartbeat (now : Z) (heartbeat_data : HeartbeatRequest) (db : table)
  : response (string * string) * table :=
  match scalar_one_or_none (select_username (hb_username heartbeat_data) db) with
  | Ok None => (HTTPException 404 "Peer not found", db)
  | Ok (Some peer) =>
      let peer := set_last_heartbeat now peer in
      let peer := set_is_active true peer in
      (Ok ("Heartbeat actualizado", username peer), flush peer db)
  | HTTPException c d => (HTTPException c d, db)
  | MultipleResultsFound => (MultipleResultsFound, db)
  end.

(** [GET /peers] *)
Definition get_active_peers (db : table) : list Peer :=
  filter is_active db.

(** [DELETE /unregister/{username}] *)
Definition unregister_peer (u : string) (db : table)
  : response string * table :=
  match scalar_one_or_none (select_username u db) with
  | Ok None => (HTTPException 404 "Peer not found", db)
  | Ok (Some peer) =>
      let peer := set_is_active false peer in
      (Ok ("Peer " ++ u ++ " desconectado")%string, flush peer db)
  | HTTPException c d => (HTTPException c d, db)
  | MultipleResultsFound => (MultipleResultsFound, db)
  end.

(** ** Requests, and the tables the service can hold *)

Inductive request :=
| Register (now : Z) (peer_data : PeerRegister)
| Heartbeat (now : Z) (heartbeat_data : HeartbeatRequest)
| Sweep (now : Z) (threshold_minutes : Z)
| Unregister (u : string).

Definition serve (r : request) (db : table) : table :=
  match r with
  | Register now d => snd (register_peer now d db)
  | Heartbeat now d => snd (heartbeat now d db)
  | Sweep now m => snd (cleanup_inactive_peers now m db)
  | Unregister u => snd (unregister_peer u db)
  end.

(** Tables reached from the empty one ([Base.metadata.create_all]). *)
Inductive in_service : table -> Prop :=
| service_created : in_service []
| service_serve r db : in_service db -> in_service (serve r db).

(** The constraints of [models.py]: primary key and [unique=True]. *)
Definition constraints (db : table) : Prop :=
  NoDup (map id db) /\ NoDup (map username db).

End Tracker.

(* ================================================================== *)
(** * Part II. The P2P node *)
(* ================================================================== *)

Module Node.

(** ** Values *)

(** One TCP stream: the [(reader, writer)] pair of asyncio. *)
Definition chan := nat.

(** What [json.loads] returns (numbers are integers here). *)
#[warnings="-register-all"]
Inductive json :=
| JNull
| JBool (b : bool)
| JInt (n : Z)
| JStr (s : string)
| JList (l : list json)
| JDict (d : list (string * json)).

(** The hashable values, up to Python's [==]: [True == 1] and [False == 0]
    are one key of a dict. *)
Inductive key :=
| KNone
| KInt (n : Z)
| KStr (s : string).

Definition key_eqb (a b : key) : bool :=
  match a, b with
  | KNone, KNone => true
  | KInt m, KInt n => m =? n
  | KStr s, KStr t => String.eqb s t
  | _, _ => false
  end.

Inductive exn :=
| ValueError          (* UnicodeDecodeError, json.JSONDecodeError *)
| AttributeError      (* [.get] on a value that is not a dict; [None.post] *)
| TypeError           (* unhashable dict key *)
| KeyError
| OSError             (* sockets: bind, connect, reset, name resolution *)
| RuntimeError        (* httpx: the client has been closed *)
| HTTPError.          (* httpx: the request failed *)

(** [hash(v)]: the key under which a dict files [v]. *)
Definition hash (v : json) : exn + key :=
  match v with
  | JNull => inr KNone
  | JBool b => inr (KInt (if b then 1 else 0))
  | JInt n => inr (KInt n)
  | JStr s => inr (KStr s)
  | JList _ | JDict _ => inl TypeError
  end.

Fixpoint assoc (name : string) (d : list (string * json)) : option json :=
  match d with
  | [] => None
  | (n, v) :: d' => if String.eqb n name then Some v else assoc name d'
  end.

(** [v.get(name)] *)
Definition py_get (v : json) (name : string) : exn + json :=
  match v with
  | JDict d => inr (match assoc name d with Some x => x | None => JNull end)
  | _ => inl AttributeError
  end.

(** [v == s] for a str literal [s] *)
Definition eq_str (v : json) (s : string) : bool :=
  match v with
  | JStr t => String.eqb t s
  | _ => false
  end.

(** What one [await reader.read(n)] gives. *)
Inductive read :=
| Eof                 (* b'' *)
| Garbage             (* bytes that [json.loads(data.decode())] rejects *)
| Frame (v : json)    (* bytes that decode to [v] *)
| Reset.              (* the read raises *)

(** Calls of the observer's callbacks. *)
Inductive event :=
| message (from : key) (content timestamp : json)
| peer_connected (peer_username : key)
| peer_disconnected (peer_username : key).

(** Requests sent to the tracker. *)
Inductive http_request :=
| POST_register (username host : string) (port : Z)
| GET_peers
| DELETE_unregister (username : string).

(** An entry of the tracker's [/peers] answer. *)
Record peer_info := mkInfo {
  info_username : string;
  info_host : string;
  info_port : Z
}.

(** The lines printed. *)
Inductive line :=
| out_incoming (c : chan)
| out_peer_connected (k : key)
| out_peer_error (e : exn)
| out_message (k : key) (content : json)
| out_read_error (k : key) (e : exn)
| out_peer_disconnected (k : key)
| out_server_listening
| out_server_error (e : exn)
| out_registered
| out_register_status (code : Z)
| out_tracker_error (e : exn)
| out_not_registered
| out_started
| out_start_error (e : exn)
| out_peers_status (code : Z)
| out_peers_error (e : exn)
| out_peer_not_found (u : string)
| out_connected_to (u : string)
| out_connect_error (u : string) (e : exn)
| out_not_connected (k : key)
| out_sent (k : key)
| out_send_error (e : exn)
| out_no_peers
| out_disconnected (k : key)
| out_disconnect_error (e : exn)
| out_stopping
| out_stopped.

(** ** The node object and its surroundings *)

Inductive client := ClientOpen | ClientClosed.      (* httpx.AsyncClient *)
Inductive task := Pending | Finished | Cancelled.   (* asyncio.Task *)

Record P2PNode := mkNode {
  username : string;
  peer_port : Z;
  tracker_url : string;
  is_running : bool;
  connected_peers : list (key * chan);      (* a dict, in insertion order *)
  http_client : option client;
  on_message_callback : bool;               (* set or None *)
  on_peer_connected_callback : bool;
  on_peer_disconnected_callback : bool;
  server_task : option task;
  heartbeat_task : option task
}.

Record world := mkWorld {
  self : P2PNode;
  listening : bool;                 (* the listening socket is bound *)
  closed : list chan;               (* streams on which [writer.close()] ran *)
  written : list (chan * json);     (* frames handed to [writer.write] *)
  events : list event;              (* callbacks invoked, oldest first *)
  requests : list http_request;     (* requests issued to the tracker *)
  stdout : list line
}.

(** What the outside does during one call. *)
Record env := mkEnv {
  start_server_ok : bool;                      (* the port can be bound *)
  gethostbyname : option string;               (* None: it raises *)
  post_register : option Z;                    (* status; None: it raises *)
  get_peers : option (Z * list peer_info);     (* status and body *)
  delete_unregister : option Z;
  open_connection : string -> Z -> option chan;
  drain_raises : chan -> bool;
  wait_closed_raises : chan -> bool;
  utcnow : string                              (* isoformat() of the clock *)
}.

(** [P2PNode.__init__] *)
Definition init (username : string) (peer_port : Z) (tracker_url : string) : world :=
  mkWorld (mkNode username peer_port tracker_url false [] None
                  false false false None None)
          false [] [] [] [] [].

(** ** Coroutines *)

(** A coroutine run on its own from a state: it returns, raises, or is left
    awaiting something that does not come. *)
Inductive outcome (A : Type) : Type :=
| Return (a : A)
| Raise (e : exn)
| Await.
Arguments Return {A} a.
Arguments Raise {A} e.
Arguments Await {A}.

Definition coro (A : Type) : Type := world -> outcome A * world.

Definition ret {A} (a : A) : coro A := fun w => (Return a, w).
Definition raise {A} (e : exn) : coro A := fun w => (Raise e, w).
Definition forever {A} : coro A := fun w => (Await, w).

Definition bind {A B} (m : coro A) (k : A -> coro B) : coro B :=
  fun w =>
    match m w with
    | (Return a, w') => k a w'
    | (Raise e, w') => (Raise e, w')
    | (Await, w') => (Await, w')
    end.

Notation "x <- m ;; k" := (bind m (fun x => k))
  (at level 61, m at next level, right associativity).
Notation "m ;; k" := (bind m (fun _ => k))
  (at level 61, right associativity).

(** [try: m  except Exception as e: h e] (also the bare [except:]) *)
Definition try_except {A} (m : coro A) (h : exn -> coro A) : coro A :=
  fun w =>
    match m w with
    | (Raise e, w') => h e w'
    | r => r
    end.

(** [try: m  finally: f].  A coroutine left awaiting has not reached its
    [finally]. *)
Definition try_finally {A} (m : coro A) (f : coro unit) : coro A :=
  fun w =>
    match m w with
    | (Await, w') => (Await, w')
    | (r, w') =>
        match f w' with
        | (Return _, w'') => (r, w'')
        | (Raise e, w'') => (Raise e, w'')
        | (Await, w'') => (Await, w'')
        end
    end.

(** A value or the exception it stands for. *)
Definition lift {A} (x : exn + A) : coro A :=
  match x with
  | inl e => raise e
  | inr a => ret a
  end.

(** [asyncio.create_task(m)]: the task runs up to its first wait that does
    not complete; an exception stays inside the task. *)
Definition create_task {A} (m : coro A) : coro task :=
  fun w =>
    match m w with
    | (Await, w') => (Return Pending, w')
    | (_, w') => (Return Finished, w')
    end.

(** [for x in l: f x] *)
Fixpoint for_each {A} (l : list A) (f : A -> coro unit) : coro unit :=
  match l with
  | [] => ret tt
  | x :: l' => f x ;; for_each l' f
  end.

(** ** Attribute access *)

Definition get {A} (f : P2PNode -> A) : coro A := fun w => (Return (f (self w)), w).

Definition with_self (f : P2PNode -> P2PNode) : coro unit :=
  fun w => (Return tt,
            mkWorld (f (self w)) (listening w) (closed w) (written w)
                    (events w) (requests w) (stdout w)).

Definition set_is_running (b : bool) : coro unit :=
  with_self (fun n =>
    mkNode (username n) (peer_port n) (tracker_url n) b (connected_peers n)
           (http_client n) (on_message_callback n) (on_peer_connected_callback n)
           (on_peer_disconnected_callback n) (server_task n) (heartbeat_task n)).

Definition set_connected_peers (d : list (key * chan)) : coro unit :=
  with_self (fun n =>
    mkNode (username n) (peer_port n) (tracker_url n) (is_running n) d
           (http_client n) (on_message_callback n) (on_peer_connected_callback n)
           (on_peer_disconnected_callback n) (server_task n) (heartbeat_task n)).

Definition set_http_client (c : option client) : coro unit :=
  with_self (fun n =>
    mkNode (username n) (peer_port n) (tracker_url n) (is_running n) (connected_peers n)
           c (on_message_callback n) (on_peer_connected_callback n)
           (on_peer_disconnected_callback n) (server_task n) (heartbeat_task n)).

Definition set_callbacks (m c d : bool) : coro unit :=
  with_self (fun n =>
    mkNode (username n) (peer_port n) (tracker_url n) (is_running n) (connected_peers n)
           (http_client n) m c d (server_task n) (heartbeat_task n)).

Definition set_server_task (t : option task) : coro unit :=
  with_self (fun n =>
    mkNode (username n) (peer_port n) (tracker_url n) (is_running n) (connected_peers n)
           (http_client n) (on_message_callback n) (on_peer_connected_callback n)
           (on_peer_disconnected_callback n) t (heartbeat_task n)).

Definition set_heartbeat_task (t : option task) : coro unit :=
  with_self (fun n =>
    mkNode (username n) (peer_port n) (tracker_url n) (is_running n) (connected_peers n)
           (http_client n) (on_message_callback n) (on_peer_connected_callback n)
           (on_peer_disconnected_callback n) (server_task n) t).

(** ** The dict [connected_peers] *)

(** [k in d] *)
Definition dict_contains (k : key) (d : list (key * chan)) : bool :=
  existsb (fun e => key_eqb (fst e) k) d.

(** [d[k]] *)
Fixpoint dict_get (k : key) (d : list (key * chan)) : option chan :=
  match d with
  | [] => None
  | (k', c) :: d' => if key_eqb k' k then Some c else dict_get k d'
  end.

(** [d[k] = c]: a present key keeps its place, a new one goes last. *)
Fixpoint dict_set (k : key) (c : chan) (d : list (key * chan)) : list (key * chan) :=
  match d with
  | [] => [(k, c)]
  | (k', c') :: d' =>
      if key_eqb k' k then (k', c) :: d' else (k', c') :: dict_set k c d'
  end.

(** [del d[k]] *)
Definition dict_del (k : key) (d : list (key * chan)) : list (key * chan) :=
  filter (fun e => negb (key_eqb (fst e) k)) d.

(** [self.connected_peers[k] = (reader, writer)] *)
Definition setitem (k : key) (c : chan) : coro unit :=
  d <- get connected_peers ;; set_connected_peers (dict_set k c d).

(** [reader, writer = self.connected_peers[k]] *)
Definition getitem (k : key) : coro chan :=
  d <- get connected_peers ;;
  match dict_get k d with
  | Some c => ret c
  | None => raise KeyError
  end.

(** [del self.connected_peers[k]] *)
Definition delitem (k : key) : coro unit :=
  d <- get connected_peers ;;
  if dict_contains k d then set_connected_peers (dict_del k d) else raise KeyError.

(** ** Effects outside the object *)

Definition print (l : line) : coro unit :=
  fun w => (Return tt,
            mkWorld (self w) (listening w) (closed w) (written w)
                    (events w) (requests w) (stdout w ++ [l])).

Definition callback (e : event) : coro unit :=
  fun w => (Return tt,
            mkWorld (self w) (listening w) (closed w) (written w)
                    (events w ++ [e]) (requests w) (stdout w)).

Definition set_listening (b : bool) : coro unit :=
  fun w => (Return tt,
            mkWorld (self w) b (closed w) (written w)
                    (events w) (requests w) (stdout w)).

(** [writer.write(frame.encode()); await writer.drain()] *)
Definition write (E : env) (c : chan) (frame : json) : coro unit :=
  fun w =>
    let w' := mkWorld (self w) (listening w) (closed w) (written w ++ [(c, frame)])
                      (events w) (requests w) (stdout w) in
    if drain_raises E c then (Raise OSError, w') else (Return tt, w').

(** [writer.close(); await writer.wait_closed()] *)
Definition close (E : env) (c : chan) : coro unit :=
  fun w =>
    let w' := mkWorld (self w) (listening w) (closed w ++ [c]) (written w)
                      (events w) (requests w) (stdout w) in
    if wait_closed_raises E c then (Raise OSError, w') else (Return tt, w').

(** A request through [self.http_client]: [reply] is what the tracker
    answers, [None] when the request fails. *)
Definition http {A} (r : http_request) (reply : option A) : coro A :=
  c <- get http_client ;;
  match c with
  | None => raise AttributeError
  | Some ClientClosed => raise RuntimeError
  | Some ClientOpen =>
      fun w =>
        let w' := mkWorld (self w) (listening w) (closed w) (written w)
                          (events w) (requests w ++ [r]) (stdout w) in
        match reply with
        | Some a => (Return a, w')
        | None => (Raise HTTPError, w')
        end
  end.

(** [data = await reader.read(n)] followed by [json.loads(data.decode())] *)
Definition loads (r : read) : coro json :=
  match r with
  | Frame v => ret v
  | Eof | Garbage => raise ValueError
  | Reset => raise OSError
  end.

(** ** node.py *)

(** [_start_server]: [serve_forever] does not return. *)
Definition _start_server (E : env) : coro unit :=
  try_except
    (if start_server_ok E
     then set_listening true ;; print out_server_listening ;; forever
     else raise OSError)
    (fun e => print (out_server_error e)).

(** The loop of [_listen_peer_messages] taken from its
    [await reader.read(4096)], over the reads to come: the test
    [while self.is_running] follows each frame handled. *)
Fixpoint reading (peer_username : key) (reads : list read) : coro unit :=
  match reads with
  | [] => forever
  | Eof :: _ => ret tt
  | r :: reads' =>
      msg <- loads r ;;
      content <- lift (py_get msg "content") ;;
      print (out_message peer_username content) ;;
      cb <- get on_message_callback ;;
      (if cb then
         timestamp <- lift (py_get msg "timestamp") ;;
         callback (message peer_username content timestamp)
       else ret tt) ;;
      running <- get is_running ;;
      if running then reading peer_username reads' else ret tt
  end.

(** [while self.is_running: ...] entered from the top *)
Definition receive (peer_username : key) (reads : list read) : coro unit :=
  running <- get is_running ;;
  if running then reading peer_username reads else ret tt.

(** The [try ... except ... finally] of [_listen_peer_messages] around its
    loop. *)
Definition listener (peer_username : key) (loop : coro unit) : coro unit :=
  try_finally
    (try_except loop (fun e => print (out_read_error peer_username e)))
    (d <- get connected_peers ;;
     if dict_contains peer_username d then
       delitem peer_username ;;
       print (out_peer_disconnected peer_username) ;;
       cb <- get on_peer_disconnected_callback ;;
       if cb then callback (peer_disconnected peer_username) else ret tt
     else ret tt).

Definition _listen_peer_messages (peer_username : key) (reads : list read)
  : coro unit :=
  listener peer_username (receive peer_username reads).

Definition handshake_ack (u : string) : json :=
  JDict [("type", JStr "handshake_ack"); ("username", JStr u)].

Definition handshake (u : string) : json :=
  JDict [("type", JStr "handshake"); ("username", JStr u)].

(** The [try ... except ... finally] of [_handle_peer_connection] around
    its body. *)
Definition handler (E : env) (c : chan) (body : coro unit) : coro unit :=
  try_finally
    (try_except body (fun e => print (out_peer_error e)))
    (close E c).

(** [_handle_peer_connection(reader, writer)] for the accepted stream [c]
    on which [reads] arrive. *)
Definition _handle_peer_connection (E : env) (c : chan) (reads : list read)
  : coro unit :=
  print (out_incoming c) ;;
  handler E c
    (match reads with
     | [] => forever
     | r :: reads' =>
         hs <- loads r ;;
         ty <- lift (py_get hs "type") ;;
         if eq_str ty "handshake" then
           u <- lift (py_get hs "username") ;;
           peer_username <- lift (hash u) ;;
           setitem peer_username c ;;
           print (out_peer_connected peer_username) ;;
           cb <- get on_peer_connected_callback ;;
           (if cb then callback (peer_connected peer_username) else ret tt) ;;
           me <- get username ;;
           write E c (handshake_ack me) ;;
           _listen_peer_messages peer_username reads'
         else ret tt
     end).

Definition register_to_tracker (E : env) : coro bool :=
  try_except
    (match gethostbyname E with
     | None => raise OSError
     | Some local_ip =>
         me <- get username ;;
         port <- get peer_port ;;
         status_code <- http (POST_register me local_ip port) (post_register E) ;;
         if status_code =? 200
         then print out_registered ;; ret true
         else print (out_register_status status_code) ;; ret false
     end)
    (fun e => print (out_tracker_error e) ;; ret false).

(** [heartbeat_loop] up to its first [asyncio.sleep(30)]; time is not
    modelled, so a started loop stays asleep. *)
Definition heartbeat_loop : coro unit :=
  running <- get is_running ;;
  if running then forever else ret tt.

Definition get_peers_from_tracker (E : env) : coro (list peer_info) :=
  try_except
    (response <- http GET_peers (get_peers E) ;;
     if fst response =? 200 then
       me <- get username ;;
       ret (filter (fun p => negb (String.eqb (info_username p) me)) (snd response))
     else print (out_peers_status (fst response)) ;; ret [])
    (fun e => print (out_peers_error e) ;; ret []).

Definition message_frame (content timestamp : string) : json :=
  JDict [("type", JStr "message"); ("content", JStr content);
         ("timestamp", JStr timestamp)].

(** [connect_to_peer(peer_username)]; [reads] arrive on the dialled stream. *)
Definition connect_to_peer (E : env) (peer_username : string) (reads : list read)
  : coro bool :=
  try_except
    (peers <- get_peers_from_tracker E ;;
     match find (fun p => String.eqb (info_username p) peer_username) peers with
     | None => print (out_peer_not_found peer_username) ;; ret false
     | Some peer_info =>
         c <- match open_connection E (info_host peer_info) (info_port peer_info) with
              | Some c => ret c
              | None => raise OSError
              end ;;
         me <- get username ;;
         write E c (handshake me) ;;
         match reads with
         | [] => forever
         | r :: reads' =>
             response <- loads r ;;
             ty <- lift (py_get response "type") ;;
             if eq_str ty "handshake_ack" then
               setitem (KStr peer_username) c ;;
               print (out_connected_to peer_username) ;;
               cb <- get on_peer_connected_callback ;;
               (if cb then callback (peer_connected (KStr peer_username)) else ret tt) ;;
               create_task (_listen_peer_messages (KStr peer_username) reads') ;;
               ret true
             else ret false
         end
     end)
    (fun e => print (out_connect_error peer_username e) ;; ret false).

Definition send_message (E : env) (peer_username : key) (content : string)
  : coro bool :=
  d <- get connected_peers ;;
  if negb (dict_contains peer_username d) then
    print (out_not_connected peer_username) ;; ret false
  else
    try_except
      (c <- getitem peer_username ;;
       write E c (message_frame content (utcnow E)) ;;
       print (out_sent peer_username) ;;
       ret true)
      (fun e => print (out_send_error e) ;; ret false).

(** The loop of [broadcast_message]: [results] in order. *)
Fixpoint send_all (E : env) (peers : list key) (content : string)
  : coro (list bool) :=
  match peers with
  | [] => ret []
  | peer_username :: peers' =>
      result <- send_message E peer_username content ;;
      results <- send_all E peers' content ;;
      ret (result :: results)
  end.

Definition broadcast_message (E : env) (content : string) : coro bool :=
  d <- get connected_peers ;;
  match d with
  | [] => print out_no_peers ;; ret false
  | _ :: _ =>
      results <- send_all E (map fst d) content ;;
      ret (forallb (fun b => b) results)
  end.

(** A receive loop that awaits its next read on a stream: the task that
    [connect_to_peer] started for the stream, or the loop inside the
    handler that accepted it. *)
Inductive awaiting_loop := In_task | In_handler.

(** Such a loop of [peer_username] on stream [c], once its read completes
    with [r]; what it raises stays in its task. *)
Definition woken (E : env) (c : chan) (peer_username : key)
  (loop : awaiting_loop) (r : read) : coro unit :=
  match loop with
  | In_task =>
      create_task (listener peer_username (reading peer_username [r])) ;;
      ret tt
  | In_handler =>
      create_task (handler E c (listener peer_username (reading peer_username [r]))) ;;
      ret tt
  end.

(** [writer.close(); await writer.wait_closed()] on the stream [c] of the
    entry of [peer_username].  Closing ends the stream: the read of a
    receive loop that awaits it completes, with end of stream or with the
    error that [wait_closed] raises, and that loop runs before
    [wait_closed] returns.  [loop] is None when no receive loop awaits a
    read on [c]. *)
Definition close_stream (E : env) (c : chan) (peer_username : key)
  (loop : option awaiting_loop) : coro unit :=
  fun w =>
    let w1 := mkWorld (self w) (listening w) (closed w ++ [c]) (written w)
                      (events w) (requests w) (stdout w) in
    let w2 := match loop with
              | Some l =>
                  snd (woken E c peer_username l
                         (if wait_closed_raises E c then Reset else Eof) w1)
              | None => w1
              end in
    if wait_closed_raises E c then (Raise OSError, w2) else (Return tt, w2).

(** [disconnect_from_peer(peer_username)]; [loop] is the receive loop that
    awaits a read on the peer's stream, if there is one. *)
Definition disconnect_from_peer (E : env) (peer_username : key)
  (loop : option awaiting_loop) : coro bool :=
  d <- get connected_peers ;;
  if negb (dict_contains peer_username d) then ret false
  else
    try_except
      (c <- getitem peer_username ;;
       close_stream E c peer_username loop ;;
       delitem peer_username ;;
       print (out_disconnected peer_username) ;;
       cb <- get on_peer_disconnected_callback ;;
       (if cb then callback (peer_disconnected peer_username) else ret tt) ;;
       ret true)
      (fun e => print (out_disconnect_error e) ;; ret false).

(** [task.cancel()] *)
Definition cancel (t : task) : task :=
  match t with
  | Pending => Cancelled
  | t => t
  end.

Definition stop (E : env) : coro unit :=
  print out_stopping ;;
  set_is_running false ;;
  try_except
    (c <- get http_client ;;
     match c with
     | Some _ =>
         me <- get username ;;
         http (DELETE_unregister me) (delete_unregister E) ;; ret tt
     | None => ret tt
     end)
    (fun _ => ret tt) ;;
  d <- get connected_peers ;;
  for_each d (fun e => try_except (close E (snd e)) (fun _ => ret tt)) ;;
  set_connected_peers [] ;;
  c <- get http_client ;;
  match c with
  | Some _ => set_http_client (Some ClientClosed)
  | None => ret tt
  end ;;
  t <- get heartbeat_task ;;
  match t with
  | Some t => set_heartbeat_task (Some (cancel t))
  | None => ret tt
  end ;;
  print out_stopped.

Definition start (E : env) : coro bool :=
  try_except
    (set_http_client (Some ClientOpen) ;;
     set_is_running true ;;
     t <- create_task (_start_server E) ;;
     set_server_task (Some t) ;;
     registered <- register_to_tracker E ;;
     if negb registered then
       print out_not_registered ;; ret false
     else
       t <- create_task heartbeat_loop ;;
       set_heartbeat_task (Some t) ;;
       print out_started ;;
       ret true)
    (fun e => print (out_start_error e) ;; stop E ;; ret false).

(** ** What can happen to a node *)

Inductive call :=
| Set_callbacks (m c d : bool)          (* the three attributes assigned *)
| Start (E : env)
| Stop (E : env)
| Accept (E : env) (c : chan) (reads : list read)
| Connect (E : env) (peer_username : string) (reads : list read)
| Send (E : env) (peer_username : key) (content : string)
| Broadcast (E : env) (content : string)
| Disconnect (E : env) (peer_username : key) (loop : option awaiting_loop)
  (* a receive loop left awaiting its read is woken by more reads: one
     started by [connect_to_peer], or one inside a handler *)
| Wake_task (peer_username : key) (reads : list read)
| Wake_handler (E : env) (peer_username : key) (c : chan) (reads : list read).

Definition run (a : call) (w : world) : world :=
  match a with
  | Set_callbacks m c d => snd (set_callbacks m c d w)
  | Start E => snd (start E w)
  | Stop E => snd (stop E w)
  | Accept E c reads => snd (_handle_peer_connection E c reads w)
  | Connect E u reads => snd (connect_to_peer E u reads w)
  | Send E k content => snd (send_message E k content w)
  | Broadcast E content => snd (broadcast_message E content w)
  | Disconnect E k loop => snd (disconnect_from_peer E k loop w)
  | Wake_task k reads => snd (listener k (reading k reads) w)
  | Wake_handler E k c reads => snd (handler E c (listener k (reading k reads)) w)
  end.

Inductive reachable : world -> Prop :=
| reach_init username peer_port tracker_url :
    reachable (init username peer_port tracker_url)
| reach_run a w : reachable w -> reachable (run a w).

End Node.

(* ================================================================== *)
(** * Part II-b. The tracker: health check and periodic cleanup *)
(* ================================================================== *)

Module TrackerService.
Import Tracker.

(** The body answered by [GET /health]. *)
Record Health := mkHealth {
  status : string;
  total_peers : nat;
  active_peers : nat;
  timestamp : Z
}.

(** [health_check]: [select(Peer)] and [select(Peer).where(is_active)],
    counted. *)
Definition health_check (now : Z) (db : table) : Health :=
  mkHealth "healthy" (length db) (length (filter is_active db)) now.

(** [periodic_cleanup]: the body of its [while True] run once for each
    clock value of [ticks] (one every 30 seconds), with the default
    [threshold_minutes = 2] of [cleanup_inactive_peers].  The result is the
    counts printed (a count is printed when [cleaned > 0]) and the table. *)
Fixpoint periodic_cleanup (ticks : list Z) (db : table) : list nat * table :=
  match ticks with
  | [] => ([], db)
  | now :: ticks' =>
      let (cleaned, db') := cleanup_inactive_peers now 2 db in
      let (printed, db'') := periodic_cleanup ticks' db' in
      ((if (0 <? cleaned)%nat then [cleaned] else []) ++ printed, db'')
  end.

End TrackerService.

(* ================================================================== *)
(** * Part II-c. The HTTP interface of the node (api.py) *)
(* ================================================================== *)

Module Api.
Import Node.

(** The request models. *)
Record StartNodeRequest := mkStart {
  start_username : string;       (* username: str *)
  start_port : Z;                (* port: int *)
  start_tracker_url : string     (* tracker_url *)
}.

Record SendMessageRequest := mkSend {
  send_peer_username : string;
  send_content : string
}.

(** What an endpoint answers: a body, or an [HTTPException]. *)
Inductive reply (A : Type) : Type :=
| Body (a : A)
| HTTPException (status_code : Z) (detail : string).
Arguments Body {A} a.
Arguments HTTPException {A} status_code detail.

(** The global [peer_node]: None, or the node with its surroundings.  The
    callbacks [start_node] installs are [notify_message],
    [notify_peer_connected] and [notify_peer_disconnected]; their calls are
    the [events] of the node's surroundings. *)
Definition app := option world.

(** An endpoint awaits the node's coroutine and answers with [answer] of
    its result. *)
Definition awaiting {A B} (r : outcome A * world) (answer : A -> reply B)
  : outcome (reply B) * app :=
  match r with
  | (Return a, w) => (Return (answer a), Some w)
  | (Raise e, w) => (Raise e, Some w)
  | (Await, w) => (Await, Some w)
  end.

(** [POST /start] *)
Definition start_node (E : env) (request : StartNodeRequest) (peer_node : app)
  : outcome (reply (string * string)) * app :=
  let running := match peer_node with
                 | Some w => is_running (self w)
                 | None => false
                 end in
  if running then
    (Return (HTTPException 400 "Nodo ya está corriendo"), peer_node)
  else
    let w := init (start_username request) (start_port request)
                  (start_tracker_url request) in
    let w := snd (set_callbacks true true true w) in
    awaiting (start E w)
      (fun success : bool =>
         if success then Body ("started", start_username request)
         else HTTPException 500 "Error iniciando nodo").

(** [POST /stop] *)
Definition stop_node (E : env) (peer_node : app)
  : outcome (reply string) * app :=
  match peer_node with
  | None => (Return (HTTPException 400 "No hay nodo corriendo"), None)
  | Some w =>
      match stop E w with
      | (Return _, _) => (Return (Body "stopped"), None)
      | (Raise e, w') => (Raise e, Some w')
      | (Await, w') => (Await, Some w')
      end
  end.

(** [GET /connected-peers] *)
Definition get_connected_peers (peer_node : app)
  : outcome (reply (list key)) * app :=
  match peer_node with
  | None => (Return (HTTPException 400 "Nodo no iniciado"), None)
  | Some w => (Return (Body (map fst (connected_peers (self w)))), Some w)
  end.

(** [POST /connect]; [reads] arrive on the dialled stream. *)
Definition connect_to_peer (E : env) (peer_username : string) (reads : list read)
  (peer_node : app) : outcome (reply (string * string)) * app :=
  match peer_node with
  | None => (Return (HTTPException 400 "Nodo no iniciado"), None)
  | Some w =>
      awaiting (Node.connect_to_peer E peer_username reads w)
        (fun success : bool =>
           if success then Body ("connected", peer_username)
           else HTTPException 400 "No se pudo conectar")
  end.

(** [POST /send] *)
Definition send_message (E : env) (request : SendMessageRequest) (peer_node : app)
  : outcome (reply string) * app :=
  match peer_node with
  | None => (Return (HTTPException 400 "Nodo no iniciado"), None)
  | Some w =>
      awaiting (Node.send_message E (KStr (send_peer_username request))
                                  (send_content request) w)
        (fun success : bool =>
           if success then Body "sent"
           else HTTPException 400 "Error enviando mensaje")
  end.

(** [DELETE /disconnect/{peer_username}]; [loop] as for
    [disconnect_from_peer]. *)
Definition disconnect_peer (E : env) (peer_username : string)
  (loop : option awaiting_loop) (peer_node : app)
  : outcome (reply string) * app :=
  match peer_node with
  | None => (Return (HTTPException 400 "Nodo no iniciado"), None)
  | Some w =>
      awaiting (disconnect_from_peer E (KStr peer_username) loop w)
        (fun success : bool =>
           if success then Body "disconnected"
           else HTTPException 400 "Peer no conectado")
  end.

End Api.

(* ================================================================== *)
(** * Part III. Facts about lists *)
(* ================================================================== *)

Lemma NoDup_snoc {A} (l : list A) x : NoDup l -> ~ In x l -> NoDup (l ++ [x]).
Proof.
  induction l as [|y l IH]; simpl; intros Hnd Hx.
  - constructor; [tauto|constructor].
  - inversion Hnd as [|? ? Hy Hl]; subst. constructor.
    + rewrite in_app_iff. simpl. intuition congruence.
    + apply IH; tauto.
Qed.

Lemma NoDup_map_filter {A B} (g : A -> B) f (l : list A) :
  NoDup (map g l) -> NoDup (map g (filter f l)).
Proof.
  induction l as [|x l IH]; simpl; intros H; [constructor|].
  inversion H as [|? ? Hx Hl]; subst.
  destruct (f x); simpl; [constructor|]; auto.
  intros Hin. apply Hx. apply in_map_iff in Hin as [y [Hy Hin]].
  apply filter_In in Hin as [Hin _]. rewrite <- Hy. now apply in_map.
Qed.

Lemma forallb_map {A B} (f : B -> bool) (g : A -> B) l :
  forallb f (map g l) = forallb (fun x => f (g x)) l.
Proof. induction l as [|x l IH]; simpl; [reflexivity|now rewrite IH]. Qed.

Lemma forallb_agree {A} (f g : A -> bool) l :
  (forall x, In x l -> f x = g x) -> forallb f l = forallb g l.
Proof.
  induction l as [|x l IH]; simpl; intros H; [reflexivity|].
  rewrite H, IH by auto. reflexivity.
Qed.

(* ================================================================== *)
(** * Part IV. The tracker: properties *)
(* ================================================================== *)

Module TrackerSpec.
Import Tracker.

(** [stale now m p]: in the words of the specification, [p] is active and
    [now - lastHeartbeat] exceeds the threshold of [m] minutes. *)
Definition stale (now m : Z) (p : Peer) : bool :=
  is_active p && (timedelta_minutes m <? now - last_heartbeat p).

(** The liveness flag only goes down, nothing else moves. *)
Definition demoted (p p' : Peer) : Prop :=
  p' = p \/ p' = set_is_active false p.

(** *** Rows and primary keys *)

Lemma same_id_same_row db p r :
  NoDup (map id db) -> In p db -> In r db -> id p = id r -> p = r.
Proof.
  induction db as [|x db IH]; simpl; [tauto|].
  intros Hnd [->|Hp] [->|Hr] Heq; inversion Hnd as [|? ? Hx Hnd']; subst.
  - reflexivity.
  - exfalso. apply Hx. rewrite Heq. now apply in_map.
  - exfalso. apply Hx. rewrite <- Heq. now apply in_map.
  - now apply IH.
Qed.

Lemma same_username_same_row db p r :
  NoDup (map username db) -> In p db -> In r db -> username p = username r -> p = r.
Proof.
  induction db as [|x db IH]; simpl; [tauto|].
  intros Hnd [->|Hp] [->|Hr] Heq; inversion Hnd as [|? ? Hx Hnd']; subst.
  - reflexivity.
  - exfalso. apply Hx. rewrite Heq. now apply in_map.
  - exfalso. apply Hx. rewrite <- Heq. now apply in_map.
  - now apply IH.
Qed.

Lemma flush_ids p db : map id (flush p db) = map id db.
Proof.
  unfold flush. rewrite map_map. apply map_ext.
  intros r. destruct (Z.eqb_spec (id r) (id p)); congruence.
Qed.

Lemma flush_length p db : length (flush p db) = length db.
Proof. unfold flush. apply length_map. Qed.

(** Writing back an object loaded from the table touches its own row only. *)
Lemma flush_row db p q :
  NoDup (map id db) -> In p db -> id q = id p ->
  flush q db = map (fun r => if id r =? id p then q else r) db.
Proof.
  intros _ _ Hid. unfold flush. apply map_ext. intros r. now rewrite Hid.
Qed.

Lemma flush_usernames db p q :
  NoDup (map id db) -> In p db -> id q = id p -> username q = username p ->
  map username (flush q db) = map username db.
Proof.
  intros Hnd Hp Hid Hu. unfold flush. rewrite map_map.
  apply map_ext_in. intros r Hr.
  destruct (Z.eqb_spec (id r) (id q)) as [e|]; [|reflexivity].
  rewrite Hu. f_equal. apply (same_id_same_row db); auto. congruence.
Qed.

Lemma flush_demoted db p :
  NoDup (map id db) -> In p db ->
  Forall2 demoted db (flush (set_is_active false p) db).
Proof.
  intros Hnd Hp. unfold flush.
  assert (H : forall l, incl l db ->
            Forall2 demoted l
              (map (fun r => if id r =? id (set_is_active false p)
                             then set_is_active false p else r) l)).
  { induction l as [|r l IH]; intros Hl; cbn [map]; constructor.
    - destruct (Z.eqb_spec (id r) (id (set_is_active false p))) as [e|].
      + right. f_equal. apply (same_id_same_row db); auto.
        apply Hl. now left.
      + now left.
    - apply IH. intros x Hx. apply Hl. now right. }
  apply H, incl_refl.
Qed.

(** *** [scalar_one_or_none] over a table with unique usernames *)

Lemma select_username_In u db p :
  In p (select_username u db) <-> In p db /\ username p = u.
Proof.
  unfold select_username. rewrite filter_In.
  destruct (String.eqb_spec (username p) u); intuition congruence.
Qed.

Lemma select_username_none u db :
  ~ In u (map username db) -> select_username u db = [].
Proof.
  intros H. destruct (select_username u db) as [|p l] eqn:E; [reflexivity|].
  exfalso. apply H.
  assert (Hp : In p (select_username u db)) by (rewrite E; now left).
  apply select_username_In in Hp as [Hp <-]. now apply in_map.
Qed.

Lemma select_username_unique u db :
  NoDup (map username db) ->
  select_username u db = [] \/ exists p, select_username u db = [p].
Proof.
  induction db as [|x db IH]; simpl; [now left|].
  intros Hnd. inversion Hnd as [|? ? Hx Hnd']; subst.
  destruct (String.eqb_spec (username x) u) as [e|ne].
  - right. exists x. f_equal. apply select_username_none. now rewrite <- e.
  - now apply IH.
Qed.

Lemma select_username_some u db p :
  NoDup (map username db) -> In p db -> username p = u ->
  select_username u db = [p].
Proof.
  intros Hnd Hp Hu.
  assert (Hin : In p (select_username u db)) by now apply select_username_In.
  destruct (select_username_unique u db Hnd) as [E|[q E]]; rewrite E in Hin |- *.
  - destruct Hin.
  - destruct Hin as [->|[]]. reflexivity.
Qed.

(** The three ways a lookup by username can end. *)
Lemma lookup_cases u db :
  NoDup (map username db) ->
  (~ In u (map username db) /\ scalar_one_or_none (select_username u db) = Ok None)
  \/ (exists p, In p db /\ username p = u
               /\ scalar_one_or_none (select_username u db) = Ok (Some p)).
Proof.
  intros Hnd. destruct (select_username_unique u db Hnd) as [E|[p E]].
  - left. split; [|now rewrite E].
    intros Hin. apply in_map_iff in Hin as [p [Hu Hp]].
    assert (Hs : In p (select_username u db)) by now apply select_username_In.
    now rewrite E in Hs.
  - right. exists p.
    assert (Hs : In p (select_username u db)) by (rewrite E; now left).
    apply select_username_In in Hs as [Hp Hu]. rewrite E. auto.
Qed.

(** *** The sweep as one pass over the table *)

Lemma stale_query now m p :
  ((last_heartbeat p <? now - timedelta_minutes m) && is_active p)%bool = stale now m p.
Proof.
  unfold stale. rewrite andb_comm. f_equal.
  destruct (Z.ltb_spec (last_heartbeat p) (now - timedelta_minutes m));
    destruct (Z.ltb_spec (timedelta_minutes m) (now - last_heartbeat p)); lia.
Qed.

Definition sweep_row (now m : Z) (p : Peer) : Peer :=
  if stale now m p then set_is_active false p else p.

Lemma fold_flush l : forall d,
  NoDup (map id l) ->
  fold_left (fun d peer => flush (set_is_active false peer) d) l d
  = map (fun r => match find (fun p => id p =? id r) l with
                  | Some p => set_is_active false p
                  | None => r
                  end) d.
Proof.
  induction l as [|p l IH]; intros d Hnd; simpl.
  - symmetry. apply map_id.
  - inversion Hnd as [|? ? Hp Hnd']; subst.
    rewrite IH by assumption. unfold flush. rewrite map_map.
    apply map_ext. intros r. simpl.
    rewrite (Z.eqb_sym (id p) (id r)).
    destruct (Z.eqb_spec (id r) (id p)) as [e|ne]; [|reflexivity].
    simpl. destruct (find (fun q => id q =? id p) l) as [q|] eqn:F; [|reflexivity].
    exfalso. apply find_some in F as [Hq Hid]. apply Hp.
    apply Z.eqb_eq in Hid. rewrite <- Hid. now apply in_map.
Qed.

Lemma find_filter_id db f r :
  NoDup (map id db) -> In r db ->
  find (fun p => id p =? id r) (filter f db) = if f r then Some r else None.
Proof.
  intros Hnd Hr.
  destruct (find (fun p => id p =? id r) (filter f db)) as [p|] eqn:F.
  - apply find_some in F as [Hp Hid]. apply filter_In in Hp as [Hp Hf].
    apply Z.eqb_eq in Hid.
    assert (p = r) by (apply (same_id_same_row db); auto). subst.
    now rewrite Hf.
  - destruct (f r) eqn:Hf; [|reflexivity].
    assert (Hn := find_none _ _ F r). simpl in Hn.
    rewrite Z.eqb_refl in Hn. discriminate Hn. apply filter_In. auto.
Qed.

Lemma cleanup_pass now m db :
  NoDup (map id db) ->
  cleanup_inactive_peers now m db
  = (length (filter (stale now m) db), map (sweep_row now m) db).
Proof.
  intros Hnd. unfold cleanup_inactive_peers, inactive_query.
  rewrite (filter_ext _ (stale now m)) by (intros p; apply stale_query).
  f_equal. rewrite fold_flush by now apply NoDup_map_filter.
  apply map_ext_in. intros r Hr.
  rewrite find_filter_id by assumption. unfold sweep_row.
  now destruct (stale now m r).
Qed.


(** *** The constraints hold in every table the service reaches *)

Lemma next_id_fresh db : ~ In (next_id db) (map id db).
Proof.
  unfold next_id. intros H.
  assert (Hmax : forall l x, In x l -> x <= fold_right Z.max 0 l).
  { induction l as [|y l IH]; simpl; [tauto|].
    intros x [->|Hx]; [lia|]. specialize (IH x Hx). lia. }
  specialize (Hmax _ _ H). lia.
Qed.

Lemma constraints_flush db p q :
  constraints db -> In p db -> id q = id p -> username q = username p ->
  constraints (flush q db).
Proof.
  intros [Hi Hu] Hp Hid Hun. split.
  - now rewrite flush_ids.
  - now rewrite (flush_usernames db p q).
Qed.

Lemma constraints_add db p :
  constraints db -> id p = next_id db -> ~ In (username p) (map username db) ->
  constraints (add p db).
Proof.
  intros [Hi Hu] Hid Hun. unfold add. split; rewrite map_app; simpl.
  - apply NoDup_snoc; [assumption|]. rewrite Hid. apply next_id_fresh.
  - now apply NoDup_snoc.
Qed.

Lemma sweep_row_id now m p : id (sweep_row now m p) = id p.
Proof. unfold sweep_row. now destruct (stale now m p). Qed.

Lemma sweep_row_username now m p : username (sweep_row now m p) = username p.
Proof. unfold sweep_row. now destruct (stale now m p). Qed.

Lemma constraints_serve r db : constraints db -> constraints (serve r db).
Proof.
  intros H. pose proof H as [Hi Hu].
  destruct r as [now d|now d|now m|u]; cbn [serve].
  - unfold register_peer.
    destruct (lookup_cases (reg_username d) db Hu) as [[Hn ->]|[p [Hp [Hx ->]]]]; simpl.
    + now apply constraints_add.
    + now apply (constraints_flush db p).
  - unfold heartbeat.
    destruct (lookup_cases (hb_username d) db Hu) as [[Hn ->]|[p [Hp [Hx ->]]]]; simpl.
    + assumption.
    + now apply (constraints_flush db p).
  - rewrite cleanup_pass by assumption. simpl. split; rewrite map_map.
    + now rewrite (map_ext _ id) by apply sweep_row_id.
    + now rewrite (map_ext _ username) by apply sweep_row_username.
  - unfold unregister_peer.
    destruct (lookup_cases u db Hu) as [[Hn ->]|[p [Hp [Hx ->]]]]; simpl.
    + assumption.
    + now apply (constraints_flush db p).
Qed.

Lemma in_service_constraints db : in_service db -> constraints db.
Proof.
  induction 1 as [|r db _ IH].
  - split; constructor.
  - now apply constraints_serve.
Qed.

(** *** The sweep *)

Lemma sweep_row_stale now m p : stale now m (sweep_row now m p) = false.
Proof.
  unfold sweep_row. destruct (stale now m p) eqn:E; [reflexivity|exact E].
Qed.

Lemma sweep_row_fixed now m p : stale now m p = false -> sweep_row now m p = p.
Proof. unfold sweep_row. now intros ->. Qed.

Definition db_two : table :=
  [ mkPeer 1 "alice" "10.0.0.1" 5000 true 0 0;
    mkPeer 2 "" "10.0.0.2" 5001 false 100000000 100000000 ].

Lemma db_two_constraints : constraints db_two.
Proof.
  split; simpl; repeat constructor; simpl; intuition discriminate.
Qed.

Lemma active_after_sweep now m db :
  get_active_peers (map (sweep_row now m) db)
  = filter (fun p => is_active p && negb (stale now m p)) db.
Proof.
  unfold get_active_peers.
  induction db as [|p db IH]; simpl; [reflexivity|].
  rewrite IH. unfold sweep_row.
  destruct (stale now m p) eqn:E; simpl.
  - now rewrite andb_false_r.
  - now rewrite andb_true_r.
Qed.

(** C8. [cleanup_inactive_peers] (the sweep) turns [is_active] off in exactly
    the rows that are active with [now - last_heartbeat] above the threshold,
    leaves every other row as it is, and returns how many rows it turned
    off; a second sweep at the same clock value changes nothing, so the set
    of active peers after it is the one after the first. *)
Theorem sweep_exact_and_idempotent now m db :
  constraints db ->
  let after := cleanup_inactive_peers now m db in
  snd after = map (fun p => if stale now m p then set_is_active false p else p) db
  /\ fst after = length (filter (stale now m) db)
  /\ get_active_peers (snd after)
     = filter (fun p => is_active p && negb (stale now m p)) db
  /\ cleanup_inactive_peers now m (snd after) = (0%nat, snd after)
  /\ get_active_peers (snd (cleanup_inactive_peers now m (snd after)))
     = get_active_peers (snd after).
Proof.
  intros [Hi Hu]. cbv zeta.
  change (fun p => if stale now m p then set_is_active false p else p)
    with (sweep_row now m).
  rewrite cleanup_pass by assumption. cbn [fst snd].
  assert (Hfix : cleanup_inactive_peers now m (map (sweep_row now m) db)
                 = (0%nat, map (sweep_row now m) db)).
  { rewrite cleanup_pass.
    - f_equal.
      + clear. induction db as [|p db IH]; simpl; [reflexivity|].
        now rewrite sweep_row_stale.
      + rewrite map_map. apply map_ext. intros p.
        apply sweep_row_fixed, sweep_row_stale.
    - rewrite map_map. now rewrite (map_ext _ id) by apply sweep_row_id. }
  split; [reflexivity|]. split; [reflexivity|]. split; [|split].
  - apply active_after_sweep.
  - exact Hfix.
  - now rewrite Hfix.
Qed.

Lemma sweep_exact_and_idempotent_witness :
  constraints db_two
  /\ cleanup_inactive_peers 150000000 2 (snd (cleanup_inactive_peers 150000000 2 db_two))
     = (0%nat, snd (cleanup_inactive_peers 150000000 2 db_two)).
Proof.
  split; [exact db_two_constraints|].
  apply (sweep_exact_and_idempotent 150000000 2 db_two db_two_constraints).
Defined.

(** *** Records are kept *)

Lemma flush_self db p : NoDup (map id db) -> In p db -> flush p db = db.
Proof.
  intros Hnd Hp. unfold flush. rewrite <- (map_id db) at 2.
  apply map_ext_in. intros r Hr.
  destruct (Z.eqb_spec (id r) (id p)) as [e|]; [|reflexivity].
  apply (same_id_same_row db); auto.
Qed.

Lemma set_is_active_same p : set_is_active (is_active p) p = p.
Proof. now destruct p. Qed.

Lemma demoted_refl l : Forall2 demoted l l.
Proof. induction l; constructor; [now left|assumption]. Qed.

Lemma sweep_demoted now m db : Forall2 demoted db (map (sweep_row now m) db).
Proof.
  induction db as [|p db IH]; simpl; constructor; [|assumption].
  unfold sweep_row. destruct (stale now m p); [now right|now left].
Qed.

(** C9. No operation of the registry removes a record: after any request
    the usernames held are the ones held before, in place, followed by the
    ones added; the sweep and [unregister_peer] leave every row as it was
    or with [is_active] turned off; [unregister_peer] answers 404
    "Peer not found" for a username it does not hold and changes nothing;
    on a record that is already inactive it succeeds and changes nothing. *)
Theorem registry_keeps_every_record db :
  constraints db ->
  (forall r, exists added,
      map username (serve r db) = map username db ++ added)
  /\ (forall now m, Forall2 demoted db (snd (cleanup_inactive_peers now m db)))
  /\ (forall u, Forall2 demoted db (snd (unregister_peer u db)))
  /\ (forall u, ~ In u (map username db) ->
        unregister_peer u db = (HTTPException 404 "Peer not found", db))
  /\ (forall p, In p db -> is_active p = false ->
        unregister_peer (username p) db
        = (Ok ("Peer " ++ username p ++ " desconectado")%string, db)).
Proof.
  intros H. pose proof H as [Hi Hu]. repeat split.
  - intros r. destruct r as [now d|now d|now m|u]; cbn [serve].
    + unfold register_peer.
      destruct (lookup_cases (reg_username d) db Hu) as [[Hn ->]|[p [Hp [Hx ->]]]];
        cbn [snd].
      * exists [reg_username d]. unfold add. now rewrite map_app.
      * exists []. rewrite app_nil_r. now apply (flush_usernames db p).
    + unfold heartbeat.
      destruct (lookup_cases (hb_username d) db Hu) as [[Hn ->]|[p [Hp [Hx ->]]]];
        cbn [snd]; exists []; rewrite app_nil_r; [reflexivity|].
      now apply (flush_usernames db p).
    + exists []. rewrite app_nil_r, cleanup_pass by assumption. cbn [snd].
      rewrite map_map. apply map_ext, sweep_row_username.
    + unfold unregister_peer.
      destruct (lookup_cases u db Hu) as [[Hn ->]|[p [Hp [Hx ->]]]];
        cbn [snd]; exists []; rewrite app_nil_r; [reflexivity|].
      now apply (flush_usernames db p).
  - intros now m. rewrite cleanup_pass by assumption. apply sweep_demoted.
  - intros u. unfold unregister_peer.
    destruct (lookup_cases u db Hu) as [[Hn ->]|[p [Hp [Hx ->]]]]; cbn [snd].
    + apply demoted_refl.
    + now apply flush_demoted.
  - intros u Hn. unfold unregister_peer.
    now rewrite (select_username_none u db Hn).
  - intros p Hp Hoff. unfold unregister_peer.
    rewrite (select_username_some (username p) db p) by auto. cbn.
    rewrite <- Hoff, set_is_active_same, flush_self by assumption.
    reflexivity.
Qed.

Lemma registry_keeps_every_record_witness :
  constraints db_two
  /\ unregister_peer "carol" db_two = (HTTPException 404 "Peer not found", db_two)
  /\ unregister_peer "" db_two = (Ok "Peer  desconectado", db_two).
Proof.
  destruct (registry_keeps_every_record db_two db_two_constraints)
    as [_ [_ [_ [Hunknown Hinactive]]]].
  split; [exact db_two_constraints|]. split.
  - apply Hunknown. simpl. intuition discriminate.
  - apply (Hinactive (mkPeer 2 "" "10.0.0.2" 5001 false 100000000 100000000)).
    + simpl. auto.
    + reflexivity.
Defined.

(** *** Registration *)

Lemma flush_In db p q :
  In p db -> id q = id p -> In q (flush q db).
Proof.
  intros Hp Hid. unfold flush. apply in_map_iff. exists p.
  split; [|assumption]. rewrite Hid, Z.eqb_refl. reflexivity.
Qed.

(** C10. [register_peer] accepts every username, the empty string included:
    it answers with the record, which carries the username, host and port of
    the request, is active and has the clock value as last heartbeat; the
    record is among [get_active_peers] afterwards.  For a username not yet
    held the record is appended to the table; for a username already held
    the row of that record (same id, same creation time) is overwritten. *)
Theorem register_accepts_every_username now data db :
  constraints db ->
  exists peer,
    register_peer now data db = (Ok peer, snd (register_peer now data db))
    /\ username peer = reg_username data
    /\ host peer = reg_host data
    /\ port peer = reg_port data
    /\ is_active peer = true
    /\ last_heartbeat peer = now
    /\ In peer (get_active_peers (snd (register_peer now data db)))
    /\ (~ In (reg_username data) (map username db) ->
          snd (register_peer now data db) = db ++ [peer])
    /\ (forall old, In old db -> username old = reg_username data ->
          id peer = id old /\ created_at peer = created_at old
          /\ snd (register_peer now data db)
             = map (fun r => if id r =? id old then peer else r) db).
Proof.
  intros [Hi Hu]. unfold register_peer.
  destruct (lookup_cases (reg_username data) db Hu) as [[Hn ->]|[p [Hp [Hx ->]]]];
    cbn [snd fst]; eexists; (split; [reflexivity|]); cbn;
    do 5 (split; [reflexivity || assumption|]); (split; [|split]).
  - unfold get_active_peers, add. apply filter_In. split; [|reflexivity].
    apply in_app_iff. right. now left.
  - reflexivity.
  - intros old Hold Hname. exfalso. apply Hn. rewrite <- Hname. now apply in_map.
  - unfold get_active_peers. apply filter_In. split; [|reflexivity].
    now apply (flush_In db p).
  - intros Hn. exfalso. apply Hn. rewrite <- Hx. now apply in_map.
  - intros old Hold Hname.
    assert (old = p) as -> by
      (apply (same_username_same_row db); auto; congruence).
    repeat split.
Qed.

Lemma register_accepts_every_username_witness :
  constraints db_two
  /\ exists peer,
       fst (register_peer 150000000 (mkPeerRegister "" "10.0.0.9" 6000) db_two) = Ok peer
       /\ username peer = ""
       /\ In peer (get_active_peers
                     (snd (register_peer 150000000 (mkPeerRegister "" "10.0.0.9" 6000) db_two))).
Proof.
  split; [exact db_two_constraints|].
  destruct (register_accepts_every_username 150000000
              (mkPeerRegister "" "10.0.0.9" 6000) db_two db_two_constraints)
    as [peer [Hr [Hname [_ [_ [_ [_ [Hin _]]]]]]]].
  exists peer. split; [|split]; [now rewrite Hr | exact Hname | exact Hin].
Defined.

End TrackerSpec.

(* ================================================================== *)
(** * Part V. The node: properties *)
(* ================================================================== *)

Module NodeSpec.
Import Node.

(** *** Keys *)

Lemma key_eqb_spec a b : reflect (a = b) (key_eqb a b).
Proof.
  destruct a as [|m|s], b as [|n|t]; simpl; try (constructor; congruence).
  - destruct (Z.eqb_spec m n); constructor; congruence.
  - destruct (String.eqb_spec s t); constructor; congruence.
Qed.

Lemma key_eqb_refl a : key_eqb a a = true.
Proof. now destruct (key_eqb_spec a a). Qed.

(** *** The dict operations *)

Lemma dict_contains_In k d : dict_contains k d = true <-> In k (map fst d).
Proof.
  unfold dict_contains. rewrite existsb_exists, in_map_iff. split.
  - intros [e [He Hk]]. exists e. destruct (key_eqb_spec (fst e) k); [auto|discriminate].
  - intros [e [He Hk]]. exists e. subst. split; [assumption|apply key_eqb_refl].
Qed.

Lemma dict_get_In k c d :
  NoDup (map fst d) -> In (k, c) d -> dict_get k d = Some c.
Proof.
  induction d as [|[k' c'] d IH]; simpl; [tauto|].
  intros Hnd [He|Hin]; inversion Hnd as [|? ? Hk Hd]; subst.
  - inversion He; subst. now rewrite key_eqb_refl.
  - destruct (key_eqb_spec k' k) as [->|]; [|now apply IH].
    exfalso. apply Hk. change k with (fst (k, c)). now apply in_map.
Qed.

Lemma dict_get_contains k d :
  dict_contains k d = false -> dict_get k d = None.
Proof.
  induction d as [|[k' c'] d IH]; simpl; [reflexivity|].
  destruct (key_eqb k' k); simpl; [discriminate|exact IH].
Qed.

Lemma dict_set_keys k c d :
  map fst (dict_set k c d)
  = if dict_contains k d then map fst d else map fst d ++ [k].
Proof.
  induction d as [|[k' c'] d IH]; simpl; [reflexivity|].
  destruct (key_eqb k' k); simpl; [reflexivity|].
  rewrite IH. unfold dict_contains. now destruct (existsb _ d).
Qed.

Lemma dict_set_get k c d : dict_get k (dict_set k c d) = Some c.
Proof.
  induction d as [|[k' c'] d IH]; simpl.
  - now rewrite key_eqb_refl.
  - destruct (key_eqb k' k) eqn:E; simpl; now rewrite E.
Qed.

Lemma dict_set_NoDup k c d :
  NoDup (map fst d) -> NoDup (map fst (dict_set k c d)).
Proof.
  intros H. rewrite dict_set_keys.
  destruct (dict_contains k d) eqn:E; [assumption|].
  apply NoDup_snoc; [assumption|].
  rewrite <- dict_contains_In, E. discriminate.
Qed.

Lemma dict_del_NoDup k d :
  NoDup (map fst d) -> NoDup (map fst (dict_del k d)).
Proof. apply NoDup_map_filter. Qed.

Lemma dict_del_contains k d : dict_contains k (dict_del k d) = false.
Proof.
  unfold dict_contains, dict_del. induction d as [|e d IH]; simpl; [reflexivity|].
  destruct (key_eqb (fst e) k) eqn:E; simpl; [exact IH|]. now rewrite E.
Qed.

Lemma dict_get_present k c d : dict_get k d = Some c -> dict_contains k d = true.
Proof.
  intros H. destruct (dict_contains k d) eqn:E; [reflexivity|].
  rewrite (dict_get_contains k d E) in H. discriminate.
Qed.

Lemma dict_set_contains k c d : dict_contains k (dict_set k c d) = true.
Proof. apply (dict_get_present k c). apply dict_set_get. Qed.

Lemma dict_del_set k c d : dict_del k (dict_set k c d) = dict_del k d.
Proof.
  unfold dict_del. induction d as [|[k' c'] d IH]; simpl.
  - now rewrite key_eqb_refl.
  - destruct (key_eqb k' k) eqn:E; simpl; rewrite E; simpl; [reflexivity|].
    now rewrite IH.
Qed.

Lemma dict_del_absent k d : dict_contains k d = false -> dict_del k d = d.
Proof.
  unfold dict_contains, dict_del. induction d as [|e d IH]; simpl; [reflexivity|].
  destruct (key_eqb (fst e) k); simpl; [discriminate|].
  intros H. now rewrite IH.
Qed.

(** *** What a coroutine preserves *)

Section Preservation.
Variable P : world -> Prop.

Definition preserves {A} (m : coro A) : Prop :=
  forall w, P w -> P (snd (m w)).

Lemma preserves_ret {A} (a : A) : preserves (ret a).
Proof. intros w H. exact H. Qed.

Lemma preserves_raise {A} e : preserves (@raise A e).
Proof. intros w H. exact H. Qed.

Lemma preserves_forever {A} : preserves (@forever A).
Proof. intros w H. exact H. Qed.

Lemma preserves_lift {A} (x : exn + A) : preserves (lift x).
Proof. destruct x; intros w H; exact H. Qed.

Lemma preserves_get {A} (f : P2PNode -> A) : preserves (get f).
Proof. intros w H. exact H. Qed.

Lemma preserves_bind {A B} (m : coro A) (k : A -> coro B) :
  preserves m -> (forall a, preserves (k a)) -> preserves (bind m k).
Proof.
  intros Hm Hk w H. unfold bind. specialize (Hm w H).
  destruct (m w) as [[a|e|] w']; simpl in *; [now apply Hk|assumption..].
Qed.

Lemma preserves_try_except {A} (m : coro A) h :
  preserves m -> (forall e, preserves (h e)) -> preserves (try_except m h).
Proof.
  intros Hm Hh w H. unfold try_except. specialize (Hm w H).
  destruct (m w) as [[a|e|] w']; simpl in *; [assumption|now apply Hh|assumption].
Qed.

Lemma preserves_try_finally {A} (m : coro A) f :
  preserves m -> preserves f -> preserves (try_finally m f).
Proof.
  intros Hm Hf w H. unfold try_finally. specialize (Hm w H).
  destruct (m w) as [[a|e|] w']; simpl in *; try assumption;
    specialize (Hf w' Hm); destruct (f w') as [[[]|e'|] w'']; assumption.
Qed.

Lemma preserves_create_task {A} (m : coro A) :
  preserves m -> preserves (create_task m).
Proof.
  intros Hm w H. unfold create_task. specialize (Hm w H).
  destruct (m w) as [[a|e|] w']; assumption.
Qed.

Lemma preserves_for_each {A} (l : list A) f :
  (forall x, preserves (f x)) -> preserves (for_each l f).
Proof.
  intros Hf. induction l as [|x l IH]; simpl.
  - apply preserves_ret.
  - apply preserves_bind; auto.
Qed.
End Preservation.

Ltac preserve_step :=
  lazymatch goal with
  | |- preserves _ (bind _ _) => apply preserves_bind; [|intros ?]
  | |- preserves _ (try_except _ _) => apply preserves_try_except; [|intros ?]
  | |- preserves _ (try_finally _ _) => apply preserves_try_finally
  | |- preserves _ (create_task _) => apply preserves_create_task
  | |- preserves _ (for_each _ _) => apply preserves_for_each; intros ?
  | |- preserves _ (ret _) => apply preserves_ret
  | |- preserves _ (raise _) => apply preserves_raise
  | |- preserves _ forever => apply preserves_forever
  | |- preserves _ (lift _) => apply preserves_lift
  | |- preserves _ (get _) => apply preserves_get
  | |- preserves _ (if ?b then _ else _) => destruct b
  | |- preserves _ (match ?x with _ => _ end) => destruct x
  end.

(** Properties of the table alone. *)
Section Table.
Variable Q : list (key * chan) -> Prop.
Hypothesis Q_clear : Q [].
Hypothesis Q_set : forall k c d, Q d -> Q (dict_set k c d).
Hypothesis Q_del : forall k d, Q d -> Q (dict_del k d).

Definition on_table (w : world) : Prop := Q (connected_peers (self w)).

Ltac frame := intros w H; exact H.

Lemma table_print l : preserves on_table (print l).
Proof. frame. Qed.
Lemma table_callback e : preserves on_table (callback e).
Proof. frame. Qed.
Lemma table_set_listening b : preserves on_table (set_listening b).
Proof. frame. Qed.
Lemma table_write E c f : preserves on_table (write E c f).
Proof. intros w H. unfold write. destruct (drain_raises E c); exact H. Qed.
Lemma table_close E c : preserves on_table (close E c).
Proof. intros w H. unfold close. destruct (wait_closed_raises E c); exact H. Qed.
Lemma table_set_is_running b : preserves on_table (set_is_running b).
Proof. frame. Qed.
Lemma table_set_http_client c : preserves on_table (set_http_client c).
Proof. frame. Qed.
Lemma table_set_callbacks m c d : preserves on_table (set_callbacks m c d).
Proof. frame. Qed.
Lemma table_set_server_task t : preserves on_table (set_server_task t).
Proof. frame. Qed.
Lemma table_set_heartbeat_task t : preserves on_table (set_heartbeat_task t).
Proof. frame. Qed.
Lemma table_http {A} r (reply : option A) : preserves on_table (http r reply).
Proof.
  intros w H. unfold http, bind, get.
  destruct (http_client (self w)) as [[|]|]; try exact H.
  destruct reply; exact H.
Qed.
Lemma table_setitem k c : preserves on_table (setitem k c).
Proof. intros w H. apply Q_set. exact H. Qed.
Lemma table_delitem k : preserves on_table (delitem k).
Proof.
  intros w H. unfold delitem, bind, get.
  destruct (dict_contains k (connected_peers (self w))); [|exact H].
  apply Q_del. exact H.
Qed.
Lemma table_getitem k : preserves on_table (getitem k).
Proof.
  intros w H. unfold getitem, bind, get.
  destruct (dict_get k (connected_peers (self w))); exact H.
Qed.
Lemma table_clear : preserves on_table (set_connected_peers []).
Proof. intros w H. exact Q_clear. Qed.

Create HintDb table.
#[local] Hint Resolve table_print table_callback table_set_listening table_write table_close
  table_set_is_running table_set_http_client table_set_callbacks
  table_set_server_task table_set_heartbeat_task table_http table_setitem
  table_delitem table_getitem table_clear : table.

Ltac table := repeat (solve [auto with table] || preserve_step).

Lemma table_reading k reads : preserves on_table (reading k reads).
Proof.
  induction reads as [|r reads IH]; simpl; [apply preserves_forever|].
  destruct r; unfold loads; table.
Qed.
#[local] Hint Resolve table_reading : table.

Lemma table_listener k loop :
  preserves on_table loop -> preserves on_table (listener k loop).
Proof. intros H. unfold listener. table. Qed.
#[local] Hint Resolve table_listener : table.

Lemma table_listen_peer_messages k reads :
  preserves on_table (_listen_peer_messages k reads).
Proof. unfold _listen_peer_messages, listener, receive. table. Qed.
#[local] Hint Resolve table_listen_peer_messages : table.

Lemma table_handler E c body :
  preserves on_table body -> preserves on_table (handler E c body).
Proof. intros H. unfold handler. table. Qed.
#[local] Hint Resolve table_handler : table.

Lemma table_handle_peer_connection E c reads :
  preserves on_table (_handle_peer_connection E c reads).
Proof. unfold _handle_peer_connection, handler, loads. table. Qed.

Lemma table_get_peers_from_tracker E :
  preserves on_table (get_peers_from_tracker E).
Proof. unfold get_peers_from_tracker. table. Qed.
#[local] Hint Resolve table_get_peers_from_tracker : table.

Lemma table_connect_to_peer E u reads :
  preserves on_table (connect_to_peer E u reads).
Proof. unfold connect_to_peer, loads. table. Qed.

Lemma table_send_message E k content :
  preserves on_table (send_message E k content).
Proof. unfold send_message. table. Qed.
#[local] Hint Resolve table_send_message : table.

Lemma table_send_all E peers content :
  preserves on_table (send_all E peers content).
Proof. induction peers as [|k peers IH]; simpl; table. Qed.
#[local] Hint Resolve table_send_all : table.

Lemma table_broadcast_message E content :
  preserves on_table (broadcast_message E content).
Proof. unfold broadcast_message. table. Qed.

Lemma table_woken E c k l r : preserves on_table (woken E c k l r).
Proof. unfold woken. destruct l; table. Qed.

Lemma table_close_stream E c k loop :
  preserves on_table (close_stream E c k loop).
Proof.
  intros w H. unfold close_stream.
  assert (H' : on_table
                 (match loop with
                  | Some l =>
                      snd (woken E c k l
                             (if wait_closed_raises E c then Reset else Eof)
                             (mkWorld (self w) (listening w) (closed w ++ [c])
                                      (written w) (events w) (requests w) (stdout w)))
                  | None =>
                      mkWorld (self w) (listening w) (closed w ++ [c])
                              (written w) (events w) (requests w) (stdout w)
                  end)).
  { destruct loop as [l|]; [apply table_woken|]; exact H. }
  destruct (wait_closed_raises E c); exact H'.
Qed.
#[local] Hint Resolve table_close_stream : table.

Lemma table_disconnect_from_peer E k loop :
  preserves on_table (disconnect_from_peer E k loop).
Proof. unfold disconnect_from_peer. table. Qed.

Lemma table_stop E : preserves on_table (stop E).
Proof. unfold stop. table. Qed.
#[local] Hint Resolve table_stop : table.

Lemma table_register_to_tracker E : preserves on_table (register_to_tracker E).
Proof. unfold register_to_tracker. table. Qed.
#[local] Hint Resolve table_register_to_tracker : table.

Lemma table_start E : preserves on_table (start E).
Proof. unfold start, _start_server, heartbeat_loop. table. Qed.

Lemma table_run a w : on_table w -> on_table (run a w).
Proof.
  destruct a; simpl.
  - apply table_set_callbacks.
  - apply table_start.
  - apply table_stop.
  - apply table_handle_peer_connection.
  - apply table_connect_to_peer.
  - apply table_send_message.
  - apply table_broadcast_message.
  - apply table_disconnect_from_peer.
  - apply table_listener, table_reading.
  - apply table_handler, table_listener, table_reading.
Qed.

Lemma table_reachable w : reachable w -> on_table w.
Proof.
  induction 1 as [| a w _ IH]; [exact Q_clear|now apply table_run].
Qed.
End Table.

(** *** Sending *)

Lemma send_message_connected E k c content w :
  dict_get k (connected_peers (self w)) = Some c ->
  let r := send_message E k content w in
  fst r = Return (negb (drain_raises E c))
  /\ self (snd r) = self w
  /\ written (snd r) = written w ++ [(c, message_frame content (utcnow E))]
  /\ closed (snd r) = closed w
  /\ events (snd r) = events w.
Proof.
  intros Hget. cbv zeta.
  assert (Hin : dict_contains k (connected_peers (self w)) = true).
  { destruct (dict_contains k (connected_peers (self w))) eqn:E0; [reflexivity|].
    apply dict_get_contains in E0. congruence. }
  destruct w as [n li cl wr ev rq so]. cbn in Hget, Hin.
  unfold send_message, bind, get, try_except, getitem, write, print, ret, raise.
  cbn. rewrite Hin. cbn. rewrite Hget. cbn.
  destruct (drain_raises E c); cbn; repeat split.
Qed.

(** Whether a call of [send_message] reported success. *)
Definition succeeded (r : outcome bool * world) : bool :=
  match fst r with
  | Return b => b
  | _ => false
  end.

Lemma send_all_spec E content d :
  NoDup (map fst d) ->
  forall l w, incl l d -> connected_peers (self w) = d ->
  let r := send_all E (map fst l) content w in
  fst r = Return (map (fun e => negb (drain_raises E (snd e))) l)
  /\ self (snd r) = self w
  /\ written (snd r)
     = written w ++ map (fun e => (snd e, message_frame content (utcnow E))) l
  /\ closed (snd r) = closed w
  /\ events (snd r) = events w.
Proof.
  intros Hnd. induction l as [|[k c] l IH]; intros w Hl Hd; cbv zeta.
  - simpl. rewrite app_nil_r. repeat split.
  - assert (Hget : dict_get k (connected_peers (self w)) = Some c).
    { rewrite Hd. apply dict_get_In; [assumption|]. apply Hl. now left. }
    destruct (send_message_connected E k c content w Hget)
      as [Hr [Hs [Hw [Hc He]]]].
    cbn [map fst send_all]. unfold bind.
    destruct (send_message E k content w) as [o w1]. cbn [fst snd] in *. subst o.
    assert (Hl' : incl l d) by (intros x Hx; apply Hl; now right).
    assert (Hd1 : connected_peers (self w1) = d) by now rewrite Hs.
    destruct (IH w1 Hl' Hd1) as [Hr' [Hs' [Hw' [Hc' He']]]].
    destruct (send_all E (map fst l) content w1) as [o w2].
    cbn [fst snd] in *. subst o. cbn [ret fst snd map].
    repeat split; try congruence.
    rewrite Hw', Hw, <- app_assoc. reflexivity.
Qed.

(** C6. [broadcast_message] fails, writing nothing, when the table is
    empty.  Otherwise it hands one message frame to the stream of every
    entry the table holds when it is called, in the table's order, whether
    or not an earlier write failed, leaves the table as it is, and returns
    the conjunction of the results of the individual [send_message] calls:
    true exactly when none of the writes raised. *)
Theorem broadcast_sends_to_every_peer E content w :
  NoDup (map fst (connected_peers (self w))) ->
  let d := connected_peers (self w) in
  let r := broadcast_message E content w in
  (d = [] -> fst r = Return false /\ written (snd r) = written w)
  /\ (d <> [] ->
        written (snd r)
        = written w ++ map (fun e => (snd e, message_frame content (utcnow E))) d
        /\ fst r = Return (forallb (fun k => succeeded (send_message E k content w))
                                   (map fst d))
        /\ fst r = Return (forallb (fun e => negb (drain_raises E (snd e))) d))
  /\ connected_peers (self (snd r)) = d.
Proof.
  intros Hnd. cbv zeta.
  destruct (connected_peers (self w)) as [|e d] eqn:Hd;
    unfold broadcast_message, bind, get; cbn [fst snd]; rewrite Hd.
  - cbn. rewrite Hd. split; [auto|]. split; [|reflexivity].
    intros H. now elim H.
  - destruct (send_all_spec E content (e :: d) Hnd (e :: d) w (incl_refl _) Hd)
      as [Hr [Hs [Hw [Hc He]]]].
    destruct (send_all E (map fst (e :: d)) content w) as [o w1].
    cbn [fst snd] in *. subst o. cbn [ret fst snd].
    split; [discriminate|]. split.
    + intros _. split; [exact Hw|]. split; [|now rewrite forallb_map].
      f_equal. rewrite !forallb_map.
      apply forallb_agree. intros [k c] Hin. cbn [fst snd].
      assert (Hget : dict_get k (connected_peers (self w)) = Some c).
      { rewrite Hd. now apply dict_get_In. }
      destruct (send_message_connected E k c content w Hget) as [Hk _].
      unfold succeeded. now rewrite Hk.
    + now rewrite Hs.
Qed.


(** C7. When the table has no entry for [peer_username], [send_message]
    returns False after printing that the node is not connected to that
    peer; the table, like the rest of the node object, is unchanged and
    nothing is written, closed or reported to the observer. *)
Theorem send_to_unconnected_peer_fails E peer_username content w :
  dict_contains peer_username (connected_peers (self w)) = false ->
  let r := send_message E peer_username content w in
  fst r = Return false
  /\ stdout (snd r) = stdout w ++ [out_not_connected peer_username]
  /\ connected_peers (self (snd r)) = connected_peers (self w)
  /\ self (snd r) = self w
  /\ written (snd r) = written w
  /\ closed (snd r) = closed w
  /\ events (snd r) = events w.
Proof.
  intros H. cbv zeta. unfold send_message, bind, get. cbn [fst snd].
  rewrite H. cbn. repeat split.
Qed.

(** *** Concrete surroundings and nodes *)

(** Everything outside works; the tracker lists bob. *)
Definition E_ok : env :=
  mkEnv true (Some "10.0.0.1") (Some 200)
        (Some (200, [mkInfo "bob" "10.0.0.2" 5001])) (Some 200)
        (fun _ _ => Some 7%nat) (fun _ => false) (fun _ => false)
        "2024-01-01T00:00:00".

(** The tracker cannot be reached. *)
Definition E_down : env :=
  mkEnv true (Some "10.0.0.1") None None None
        (fun _ _ => None) (fun _ => false) (fun _ => false)
        "2024-01-01T00:00:00".

(** alice's node as [api.start_node] builds it, before and after [start]. *)
Definition w_new : world :=
  run (Set_callbacks true true true) (init "alice" 5000 "http://localhost:8000").

Definition w_started : world := run (Start E_ok) w_new.

Lemma send_to_unconnected_peer_fails_witness :
  dict_contains (KStr "carol") (connected_peers (self w_started)) = false
  /\ fst (send_message E_ok (KStr "carol") "hi" w_started) = Return false
  /\ connected_peers (self (snd (send_message E_ok (KStr "carol") "hi" w_started)))
     = connected_peers (self w_started).
Proof.
  assert (H : dict_contains (KStr "carol") (connected_peers (self w_started)) = false)
    by reflexivity.
  destruct (send_to_unconnected_peer_fails E_ok (KStr "carol") "hi" w_started H)
    as [Hr [_ [Ht _]]].
  split; [exact H|]. split; [exact Hr|exact Ht].
Defined.

(** *** [stop] *)

Lemma close_all E (d : list (key * chan)) : forall w,
  for_each d (fun e => try_except (close E (snd e)) (fun _ => ret tt)) w
  = (Return tt,
     mkWorld (self w) (listening w) (closed w ++ map snd d) (written w)
             (events w) (requests w) (stdout w)).
Proof.
  induction d as [|[k c] d IH]; intros w.
  - destruct w. cbn. now rewrite app_nil_r.
  - cbn [for_each]. unfold bind, try_except, close at 1. cbn [snd].
    destruct (wait_closed_raises E c); cbn; rewrite IH; cbn;
      now rewrite <- app_assoc.
Qed.

(** The node object after [stop]. *)
Definition stopped (n : P2PNode) : P2PNode :=
  mkNode (username n) (peer_port n) (tracker_url n) false []
         (match http_client n with Some _ => Some ClientClosed | None => None end)
         (on_message_callback n) (on_peer_connected_callback n)
         (on_peer_disconnected_callback n) (server_task n)
         (match heartbeat_task n with Some t => Some (cancel t) | None => None end).

Lemma stop_run E w :
  stop E w
  = (Return tt,
     mkWorld (stopped (self w)) (listening w)
             (closed w ++ map snd (connected_peers (self w)))
             (written w) (events w)
             (requests w ++ match http_client (self w) with
                            | Some ClientOpen => [DELETE_unregister (username (self w))]
                            | _ => []
                            end)
             (stdout w ++ [out_stopping; out_stopped])).
Proof.
  destruct w as [[u p t r d h m c x s b] li cl wr ev rq so].
  unfold stop, bind at 1. cbn [print fst snd].
  unfold bind at 1. cbn.
  unfold bind at 1.
  assert (Hu :
    try_except
      (c0 <- get http_client ;;
       match c0 with
       | Some _ => me <- get username ;;
                   http (DELETE_unregister me) (delete_unregister E) ;; ret tt
       | None => ret tt
       end)
      (fun _ => ret tt)
      (mkWorld (mkNode u p t false d h m c x s b) li cl wr ev rq (so ++ [out_stopping]))
    = (Return tt,
       mkWorld (mkNode u p t false d h m c x s b) li cl wr ev
               (rq ++ match h with
                      | Some ClientOpen => [DELETE_unregister u]
                      | _ => []
                      end)
               (so ++ [out_stopping]))).
  { unfold try_except, bind, get, http. cbn.
    destruct h as [[|]|]; cbn; rewrite ?app_nil_r; try reflexivity.
    destruct (delete_unregister E); reflexivity. }
  rewrite Hu. unfold bind at 1. cbn [get fst snd self connected_peers].
  unfold bind at 1. rewrite close_all. cbn.
  unfold stopped. cbn.
  destruct h as [[|]|], b as [t0|]; cbn; unfold print; cbn;
    rewrite <- ?app_assoc; reflexivity.
Qed.


(** C4. [stop] returns, but a node whose server task is running and whose
    listening socket is bound is left with both: [stop] never touches
    [server_task] and the socket stays bound. *)
Theorem stop_leaves_listener_running E w :
  listening w = true ->
  server_task (self w) = Some Pending ->
  let r := stop E w in
  fst r = Return tt
  /\ listening (snd r) = true
  /\ server_task (self (snd r)) = Some Pending
  /\ connected_peers (self (snd r)) = []
  /\ is_running (self (snd r)) = false.
Proof.
  intros Hl Hs. cbv zeta. rewrite stop_run. cbn. auto.
Qed.

Lemma stop_leaves_listener_running_witness :
  listening w_started = true
  /\ server_task (self w_started) = Some Pending
  /\ listening (snd (stop E_ok w_started)) = true
  /\ server_task (self (snd (stop E_ok w_started))) = Some Pending.
Proof.
  assert (Hl : listening w_started = true) by reflexivity.
  assert (Hs : server_task (self w_started) = Some Pending) by reflexivity.
  destruct (stop_leaves_listener_running E_ok w_started Hl Hs) as [_ [H1 [H2 _]]].
  auto.
Defined.

(** *** [start] *)

(** The tracker accepts the registration. *)
Definition registers (E : env) : bool :=
  match gethostbyname E, post_register E with
  | Some _, Some status_code => status_code =? 200
  | _, _ => false
  end.

(** C3. When the registration fails, [start] returns False by its early
    [return] and releases nothing: the node stays marked running, the HTTP
    client stays open, the server task created before the attempt is left
    as it is and the listening socket it bound stays bound.  No heartbeat
    task is created. *)
Theorem failed_registration_releases_nothing E w :
  registers E = false ->
  let r := start E w in
  fst r = Return false
  /\ is_running (self (snd r)) = true
  /\ http_client (self (snd r)) = Some ClientOpen
  /\ server_task (self (snd r))
     = Some (if start_server_ok E then Pending else Finished)
  /\ listening (snd r) = (start_server_ok E || listening w)%bool
  /\ heartbeat_task (self (snd r)) = heartbeat_task (self w).
Proof.
  intros H. cbv zeta.
  destruct w as [[u p t r d h m c x s b] li cl wr ev rq so].
  destruct E as [ok ghn post gp del oc dr wc now]. unfold registers in H. cbn in H.
  unfold start, register_to_tracker, _start_server, try_except, create_task, bind.
  cbn.
  destruct ok, ghn as [ip|], post as [code|]; cbn;
    try (destruct (code =? 200); [discriminate|]); cbn; repeat split.
Qed.

Lemma failed_registration_releases_nothing_witness :
  registers E_down = false
  /\ fst (start E_down w_new) = Return false
  /\ listening (snd (start E_down w_new)) = true
  /\ server_task (self (snd (start E_down w_new))) = Some Pending
  /\ is_running (self (snd (start E_down w_new))) = true.
Proof.
  assert (H : registers E_down = false) by reflexivity.
  destruct (failed_registration_releases_nothing E_down w_new H)
    as [H1 [H2 [_ [H4 [H5 _]]]]].
  split; [exact H|]. split; [exact H1|]. split; [exact H5|].
  split; [exact H4|exact H2].
Defined.

(** *** The receive loop *)

(** [d.get(name)] on a dict. *)
Definition get_or_none (name : string) (d : list (string * json)) : json :=
  match assoc name d with
  | Some x => x
  | None => JNull
  end.

(** Reads that carry a JSON object each. *)
Definition frames (msgs : list (list (string * json))) : list read :=
  map (fun d => Frame (JDict d)) msgs.

(** A read on which the loop ends: end of stream, bytes that do not decode,
    a broken stream, or a value without [.get]. *)
Definition ends_loop (r : read) : bool :=
  match r with
  | Frame (JDict _) => false
  | _ => true
  end.

(** How the loop is left on such a read. *)
Definition loop_exit (r : read) : outcome unit :=
  match r with
  | Eof => Return tt
  | Garbage => Raise ValueError
  | Reset => Raise OSError
  | Frame _ => Raise AttributeError
  end.

(** The [on_message_callback] calls for the frames [msgs] of [k]. *)
Definition delivered (cb : bool) (k : key) (msgs : list (list (string * json)))
  : list event :=
  if cb
  then map (fun d => message k (get_or_none "content" d) (get_or_none "timestamp" d)) msgs
  else [].

Lemma reading_run k msgs last rest : forall w,
  is_running (self w) = true ->
  ends_loop last = true ->
  reading k (frames msgs ++ last :: rest) w
  = (loop_exit last,
     mkWorld (self w) (listening w) (closed w) (written w)
             (events w ++ delivered (on_message_callback (self w)) k msgs)
             (requests w)
             (stdout w ++ map (fun d => out_message k (get_or_none "content" d)) msgs)).
Proof.
  induction msgs as [|d msgs IH]; intros w Hrun Hend.
  - destruct w as [n li cl wr ev rq so]. cbn [frames map app].
    unfold delivered. cbn [map]. rewrite !app_nil_r.
    replace (if on_message_callback (self (mkWorld n li cl wr ev rq so))
             then [] else []) with (@nil event) by (now destruct (on_message_callback _)).
    rewrite app_nil_r.
    destruct last as [| |v|]; try reflexivity.
    destruct v; try reflexivity. discriminate Hend.
  - destruct w as [n li cl wr ev rq so]. cbn in Hrun.
    cbn [frames map app reading]. fold (frames msgs).
    unfold bind at 1. cbn [loads ret].
    unfold bind at 1. cbn [py_get lift ret]. fold (get_or_none "content" d).
    unfold bind at 1. cbn [print fst snd self listening closed written events requests stdout].
    unfold bind at 1. cbn [get fst snd self].
    destruct (on_message_callback n) eqn:Hcb.
    + unfold bind at 1. unfold bind at 1. cbn [py_get lift ret].
      fold (get_or_none "timestamp" d).
      cbn [callback fst snd self listening closed written events requests stdout].
      unfold bind at 1. cbn [get fst snd self]. rewrite Hrun.
      rewrite IH by assumption. cbn [self listening closed written events requests stdout].
      unfold delivered. rewrite Hcb. cbn [map]. rewrite <- !app_assoc. reflexivity.
    + unfold bind at 1. cbn [ret].
      unfold bind at 1. cbn [get fst snd self]. rewrite Hrun.
      rewrite IH by assumption. cbn [self listening closed written events requests stdout].
      unfold delivered. rewrite Hcb. cbn [map]. rewrite <- !app_assoc. reflexivity.
Qed.

Definition with_table (d : list (key * chan)) (n : P2PNode) : P2PNode :=
  mkNode (username n) (peer_port n) (tracker_url n) (is_running n) d
         (http_client n) (on_message_callback n) (on_peer_connected_callback n)
         (on_peer_disconnected_callback n) (server_task n) (heartbeat_task n).

(** The [finally] of [_listen_peer_messages]. *)
Definition dropped (k : key) (w : world) : world :=
  if dict_contains k (connected_peers (self w)) then
    mkWorld (with_table (dict_del k (connected_peers (self w))) (self w))
            (listening w) (closed w) (written w)
            (events w ++ if on_peer_disconnected_callback (self w)
                         then [peer_disconnected k] else [])
            (requests w)
            (stdout w ++ [out_peer_disconnected k])
  else w.

Lemma listener_run k loop w o w1 :
  loop w = (o, w1) -> o <> Await ->
  listener k loop w
  = (Return tt,
     dropped k (match o with
                | Raise e => snd (print (out_read_error k e) w1)
                | _ => w1
                end)).
Proof.
  intros Hloop Ho. unfold listener, try_finally, try_except. rewrite Hloop.
  assert (Hfin : forall w2 : world,
    (d <- get connected_peers ;;
     if dict_contains k d then
       delitem k ;;
       print (out_peer_disconnected k) ;;
       cb <- get on_peer_disconnected_callback ;;
       if cb then callback (peer_disconnected k) else ret tt
     else ret tt) w2 = (Return tt, dropped k w2)).
  { intros [n li cl wr ev rq so]. unfold dropped, bind at 1. cbn [get fst snd self].
    destruct (dict_contains k (connected_peers n)) eqn:Hin; [|reflexivity].
    unfold bind, delitem, get. cbn. rewrite Hin. cbn.
    unfold with_table.
    destruct (on_peer_disconnected_callback n); unfold callback, ret; cbn;
      now rewrite ?app_nil_r. }
  destruct o as [[]|e|]; [| |now elim Ho].
  - now rewrite Hfin.
  - cbn [print fst snd]. now rewrite Hfin.
Qed.

Lemma listen_run k msgs last rest w :
  is_running (self w) = true ->
  ends_loop last = true ->
  exists w1,
    _listen_peer_messages k (frames msgs ++ last :: rest) w = (Return tt, dropped k w1)
    /\ self w1 = self w
    /\ listening w1 = listening w
    /\ closed w1 = closed w
    /\ written w1 = written w
    /\ events w1 = events w ++ delivered (on_message_callback (self w)) k msgs
    /\ requests w1 = requests w.
Proof.
  intros Hrun Hend. unfold _listen_peer_messages.
  assert (Hrec : receive k (frames msgs ++ last :: rest) w
                 = reading k (frames msgs ++ last :: rest) w).
  { unfold receive, bind, get. cbn [fst snd]. now rewrite Hrun. }
  eexists. split.
  - apply listener_run.
    + rewrite Hrec. apply reading_run; assumption.
    + destruct last as [| |v|]; discriminate.
  - destruct last as [| |v|]; cbn; repeat split.
Qed.

Lemma dropped_frame k w :
  listening (dropped k w) = listening w
  /\ closed (dropped k w) = closed w
  /\ written (dropped k w) = written w
  /\ requests (dropped k w) = requests w.
Proof.
  unfold dropped. destruct (dict_contains k (connected_peers (self w)));
    repeat split.
Qed.

(** The loop ends on such a stream whatever the state it is started in. *)
Lemma listen_ends k msgs last rest w :
  ends_loop last = true ->
  exists w', _listen_peer_messages k (frames msgs ++ last :: rest) w = (Return tt, w')
             /\ closed w' = closed w.
Proof.
  intros Hend. destruct (is_running (self w)) eqn:Hrun.
  - destruct (listen_run k msgs last rest w Hrun Hend) as [w1 [H [_ [_ [Hc _]]]]].
    eexists. split; [exact H|].
    destruct (dropped_frame k w1) as [_ [Hc' _]]. congruence.
  - unfold _listen_peer_messages. eexists. split.
    + apply (listener_run k _ w (Return tt) w); [|discriminate].
      unfold receive, bind, get. cbn [fst snd]. now rewrite Hrun.
    + apply dropped_frame.
Qed.

(** *** Coroutines that are not left awaiting *)

Definition completes {A} (m : coro A) : Prop := forall w, fst (m w) <> Await.

Lemma completes_ret {A} (a : A) : completes (ret a).
Proof. intros w. discriminate. Qed.

Lemma completes_raise {A} e : completes (@raise A e).
Proof. intros w. discriminate. Qed.

Lemma completes_lift {A} (x : exn + A) : completes (lift x).
Proof. destruct x; intros w; discriminate. Qed.

Lemma completes_get {A} (f : P2PNode -> A) : completes (get f).
Proof. intros w. discriminate. Qed.

Lemma completes_bind {A B} (m : coro A) (k : A -> coro B) :
  completes m -> (forall a, completes (k a)) -> completes (bind m k).
Proof.
  intros Hm Hk w. unfold bind. specialize (Hm w).
  destruct (m w) as [[a|e|] w']; cbn in *; [apply Hk|discriminate|now elim Hm].
Qed.

Lemma completes_try_except {A} (m : coro A) h :
  completes m -> (forall e, completes (h e)) -> completes (try_except m h).
Proof.
  intros Hm Hh w. unfold try_except. specialize (Hm w).
  destruct (m w) as [[a|e|] w']; cbn in *; [discriminate|apply Hh|now elim Hm].
Qed.

Lemma completes_print l : completes (print l).
Proof. intros w. discriminate. Qed.

Lemma completes_callback e : completes (callback e).
Proof. intros w. discriminate. Qed.

Lemma completes_write E c f : completes (write E c f).
Proof. intros w. unfold write. destruct (drain_raises E c); discriminate. Qed.

Lemma completes_setitem k c : completes (setitem k c).
Proof. intros w. discriminate. Qed.

Lemma completes_listen_peer_messages k msgs last rest :
  ends_loop last = true ->
  completes (_listen_peer_messages k (frames msgs ++ last :: rest)).
Proof.
  intros Hend w. destruct (listen_ends k msgs last rest w Hend) as [w' [-> _]].
  discriminate.
Qed.

(** A handler whose body does not stay awaiting closes its stream. *)
Lemma handler_closes E c body w :
  completes body -> In c (closed (snd (handler E c body w))).
Proof.
  intros Hb. unfold handler, try_finally, try_except. specialize (Hb w).
  destruct (body w) as [[[]|e|] w1]; cbn in *; [| |now elim Hb];
    unfold close; destruct (wait_closed_raises E c); cbn;
    apply in_app_iff; right; now left.
Qed.

Lemma accepted_stream_is_closed E c first msgs last rest w :
  ends_loop last = true ->
  In c (closed (snd (_handle_peer_connection E c (first :: frames msgs ++ last :: rest) w))).
Proof.
  intros Hend. unfold _handle_peer_connection, bind at 1. cbn [print fst snd].
  apply handler_closes.
  repeat first
    [ apply completes_bind; [|intros ?]
    | apply completes_lift | apply completes_get | apply completes_print
    | apply completes_callback | apply completes_write | apply completes_setitem
    | apply completes_ret
    | now apply completes_listen_peer_messages
    | match goal with
      | |- completes (if ?b then _ else _) => destruct b
      | |- completes (loads ?r) => destruct r; unfold loads
      | |- completes (raise _) => apply completes_raise
      end ].
Qed.

(** *** The handshakes *)

(** The state in which an accepted handshake from [k] on stream [c] leaves
    the node when the acknowledgement has been written. *)
Definition greeted (c : chan) (k : key) (w : world) : world :=
  mkWorld (with_table (dict_set k c (connected_peers (self w))) (self w))
          (listening w) (closed w)
          (written w ++ [(c, handshake_ack (username (self w)))])
          (events w ++ if on_peer_connected_callback (self w)
                       then [peer_connected k] else [])
          (requests w)
          (stdout w ++ [out_incoming c; out_peer_connected k]).

Lemma accept_run E c hs ty u k stream w :
  py_get hs "type" = inr ty ->
  eq_str ty "handshake" = true ->
  py_get hs "username" = inr u ->
  hash u = inr k ->
  drain_raises E c = false ->
  _handle_peer_connection E c (Frame hs :: stream) w
  = handler E c (_listen_peer_messages k stream) (greeted c k w).
Proof.
  intros Hty Heq Hun Hhash Hdrain.
  destruct w as [n li cl wr ev rq so].
  unfold _handle_peer_connection, bind at 1. cbn [print fst snd].
  unfold handler, try_finally, try_except.
  match goal with
  | |- match match ?b ?w0 with _ => _ end with _ => _ end
       = match match ?b' ?w1 with _ => _ end with _ => _ end =>
      assert (Hbody : b w0 = b' w1)
  end.
  { unfold bind at 1. cbn [loads ret].
    unfold bind at 1. rewrite Hty. cbn [lift ret]. rewrite Heq.
    unfold bind at 1. rewrite Hun. cbn [lift ret].
    unfold bind at 1. rewrite Hhash. cbn [lift ret].
    unfold bind at 1. cbn [setitem]. unfold bind at 1. cbn.
    set (L := _listen_peer_messages k stream).
    unfold greeted, with_table. cbn [self listening closed written events requests stdout
                                      username peer_port tracker_url is_running connected_peers
                                      http_client on_message_callback on_peer_connected_callback
                                      on_peer_disconnected_callback server_task heartbeat_task].
    destruct (on_peer_connected_callback n);
      unfold bind, callback, ret, get, write; cbn; rewrite Hdrain;
      rewrite <- !app_assoc, ?app_nil_r; reflexivity. }
  rewrite Hbody. reflexivity.
Qed.

Lemma listen_pending k w :
  is_running (self w) = true ->
  _listen_peer_messages k [] w = (Await, w).
Proof.
  intros Hrun.
  unfold _listen_peer_messages, listener, receive, try_finally, try_except, bind, get.
  cbn [fst snd]. rewrite Hrun. reflexivity.
Qed.

Lemma handler_pending E c k w :
  is_running (self w) = true ->
  handler E c (_listen_peer_messages k []) w = (Await, w).
Proof.
  intros Hrun. unfold handler, try_finally, try_except.
  now rewrite listen_pending.
Qed.

(** The state in which a completed outbound handshake with [u] on stream
    [c] leaves the node. *)
Definition joined (c : chan) (u : string) (w : world) : world :=
  mkWorld (with_table (dict_set (KStr u) c (connected_peers (self w))) (self w))
          (listening w) (closed w)
          (written w ++ [(c, handshake (username (self w)))])
          (events w ++ if on_peer_connected_callback (self w)
                       then [peer_connected (KStr u)] else [])
          (requests w ++ [GET_peers])
          (stdout w ++ [out_connected_to u]).

Lemma connect_run E u response ty stream code body peer_info c w :
  http_client (self w) = Some ClientOpen ->
  get_peers E = Some (code, body) ->
  (code =? 200) = true ->
  find (fun p => String.eqb (info_username p) u)
       (filter (fun p => negb (String.eqb (info_username p) (username (self w)))) body)
  = Some peer_info ->
  open_connection E (info_host peer_info) (info_port peer_info) = Some c ->
  drain_raises E c = false ->
  py_get response "type" = inr ty ->
  eq_str ty "handshake_ack" = true ->
  connect_to_peer E u (Frame response :: stream) w
  = (Return true,
     snd (create_task (_listen_peer_messages (KStr u) stream) (joined c u w))).
Proof.
  intros Hc Hpeers Hcode Hfind Hopen Hdrain Hty Heq.
  destruct w as [n li cl wr ev rq so]. cbn in Hc, Hfind.
  unfold connect_to_peer, try_except.
  unfold bind at 1.
  assert (Hget : get_peers_from_tracker E (mkWorld n li cl wr ev rq so)
                 = (Return (filter (fun p => negb (String.eqb (info_username p) (username n))) body),
                    mkWorld n li cl wr ev (rq ++ [GET_peers]) so)).
  { unfold get_peers_from_tracker, try_except, bind, http, get. cbn.
    rewrite Hc. cbn. rewrite Hpeers. cbn. rewrite Hcode. reflexivity. }
  rewrite Hget, Hfind.
  unfold bind at 1. rewrite Hopen. cbn [ret].
  unfold bind at 1. cbn [get fst snd self].
  unfold bind at 1. unfold write at 1. cbn. rewrite Hdrain.
  unfold bind at 1. cbn [loads ret].
  unfold bind at 1. rewrite Hty. cbn [lift ret]. rewrite Heq.
  set (L := _listen_peer_messages (KStr u) stream).
  unfold joined, with_table.
  cbn [self listening closed written events requests stdout
       username peer_port tracker_url is_running connected_peers
       http_client on_message_callback on_peer_connected_callback
       on_peer_disconnected_callback server_task heartbeat_task].
  unfold bind, setitem, callback, ret, get, print, create_task; cbn.
  destruct (on_peer_connected_callback n); cbn; rewrite ?app_nil_r;
    match goal with
    | |- context [L ?w0] => destruct (L w0) as [[[]|e|] w2]; reflexivity
    end.
Qed.

Lemma greeted_frame c k w :
  connected_peers (self (greeted c k w)) = dict_set k c (connected_peers (self w))
  /\ is_running (self (greeted c k w)) = is_running (self w)
  /\ closed (greeted c k w) = closed w.
Proof. repeat split. Qed.

(** C1. A first frame that is a JSON object with type "handshake" and no
    "username" is not turned away: the stream is filed in the table under
    the key None, the observer is told that peer None connected, the
    acknowledgement is written, and the handler goes on to await that
    peer's messages with the stream open. *)
Theorem handshake_without_username_is_accepted E c d w :
  assoc "type" d = Some (JStr "handshake") ->
  assoc "username" d = None ->
  is_running (self w) = true ->
  drain_raises E c = false ->
  let r := _handle_peer_connection E c [Frame (JDict d)] w in
  fst r = Await
  /\ connected_peers (self (snd r)) = dict_set KNone c (connected_peers (self w))
  /\ dict_get KNone (connected_peers (self (snd r))) = Some c
  /\ events (snd r)
     = events w ++ (if on_peer_connected_callback (self w)
                    then [peer_connected KNone] else [])
  /\ written (snd r) = written w ++ [(c, handshake_ack (username (self w)))]
  /\ closed (snd r) = closed w.
Proof.
  intros Hty Hun Hrun Hdrain. cbv zeta.
  rewrite (accept_run E c (JDict d) (JStr "handshake") JNull KNone [] w);
    try reflexivity; try assumption.
  - rewrite handler_pending by assumption. cbn [fst snd].
    repeat split. cbn. apply dict_set_get.
  - cbn. now rewrite Hty.
  - cbn. now rewrite Hun.
Qed.

Lemma handshake_without_username_is_accepted_witness :
  connected_peers
    (self (snd (_handle_peer_connection E_ok 1%nat
                  [Frame (JDict [("type", JStr "handshake")])] w_started)))
  = [(KNone, 1%nat)]
  /\ events (snd (_handle_peer_connection E_ok 1%nat
                    [Frame (JDict [("type", JStr "handshake")])] w_started))
     = [peer_connected KNone].
Proof.
  destruct (handshake_without_username_is_accepted E_ok 1%nat
              [("type", JStr "handshake")] w_started
              eq_refl eq_refl eq_refl eq_refl) as [_ [Ht [_ [He _]]]].
  split; [exact Ht|exact He].
Defined.

(** A first read that is not a handshake: it does not decode, it is not a
    JSON object, or its "type" is not "handshake". *)
Definition not_a_handshake (r : read) : bool :=
  match r with
  | Frame v =>
      match py_get v "type" with
      | inr ty => negb (eq_str ty "handshake")
      | inl _ => true
      end
  | _ => true
  end.

(** Such a connection is closed and leaves no other trace: the node object
    (its table included), the events and the frames written are as before. *)
Lemma not_a_handshake_is_dropped E c r stream w :
  not_a_handshake r = true ->
  let res := _handle_peer_connection E c (r :: stream) w in
  fst res <> Await
  /\ self (snd res) = self w
  /\ events (snd res) = events w
  /\ written (snd res) = written w
  /\ closed (snd res) = closed w ++ [c].
Proof.
  intros H. cbv zeta. destruct w as [n li cl wr ev rq so].
  unfold _handle_peer_connection, handler, try_finally, try_except, bind, close.
  destruct r as [| |v|]; cbn in H |- *;
    try (destruct (wait_closed_raises E c); cbn; repeat split; discriminate).
  destruct v; cbn in H |- *;
    try (destruct (wait_closed_raises E c); cbn; repeat split; discriminate).
  destruct (assoc "type" d) as [ty|]; cbn in H |- *.
  - destruct (eq_str ty "handshake"); [discriminate|]. cbn.
    destruct (wait_closed_raises E c); cbn; repeat split; discriminate.
  - destruct (wait_closed_raises E c); cbn; repeat split; discriminate.
Qed.

Lemma reachable_keys_unique w :
  reachable w -> NoDup (map fst (connected_peers (self w))).
Proof.
  apply (table_reachable (fun d => NoDup (map fst d))).
  - constructor.
  - intros; now apply dict_set_NoDup.
  - intros; now apply dict_del_NoDup.
Qed.


(** bob has connected to alice on stream 1. *)
Definition w_bob : world :=
  run (Accept E_ok 1%nat [Frame (handshake "bob")]) w_started.

Lemma w_bob_reachable : reachable w_bob.
Proof. unfold w_bob, w_started, w_new. repeat apply reach_run. apply reach_init. Qed.



(** The end of a receive loop.  When the receive loop of a running node,
    after any number of well-formed frames, reads end of stream or
    something that does not decode to a JSON object, it ends and the
    coroutine returns.  The table is left without an entry for the peer.
    If the entry was still there the observer gets exactly one
    [peer_disconnected] for that username (when the callback is set), after
    the messages delivered; if it was already gone nothing is removed and
    nothing is reported.  The handler of an accepted connection then closes
    its stream. *)
Theorem receive_loop_end peer_username msgs last rest w :
  is_running (self w) = true ->
  ends_loop last = true ->
  let d := connected_peers (self w) in
  let r := _listen_peer_messages peer_username (frames msgs ++ last :: rest) w in
  fst r = Return tt
  /\ connected_peers (self (snd r)) = dict_del peer_username d
  /\ dict_contains peer_username (connected_peers (self (snd r))) = false
  /\ (dict_contains peer_username d = true ->
        events (snd r)
        = events w ++ delivered (on_message_callback (self w)) peer_username msgs
                   ++ (if on_peer_disconnected_callback (self w)
                       then [peer_disconnected peer_username] else []))
  /\ (dict_contains peer_username d = false ->
        connected_peers (self (snd r)) = d
        /\ events (snd r)
           = events w ++ delivered (on_message_callback (self w)) peer_username msgs)
  /\ (forall E c first,
        In c (closed (snd (_handle_peer_connection E c
                             (first :: frames msgs ++ last :: rest) w)))).
Proof.
  intros Hrun Hend. cbv zeta.
  destruct (listen_run peer_username msgs last rest w Hrun Hend)
    as [w1 [-> [Hs [_ [_ [_ [He _]]]]]]].
  cbn [fst snd]. unfold dropped. rewrite Hs.
  destruct (dict_contains peer_username (connected_peers (self w))) eqn:Hin;
    cbn [self connected_peers with_table events]; rewrite ?Hs, ?He;
    (split; [reflexivity|]); (split; [|split; [|split; [|split]]]).
  - reflexivity.
  - apply dict_del_contains.
  - intros _. now rewrite app_assoc.
  - discriminate.
  - intros E c first. now apply accepted_stream_is_closed.
  - symmetry. now apply dict_del_absent.
  - exact Hin.
  - discriminate.
  - intros _. split; reflexivity.
  - intros E c first. now apply accepted_stream_is_closed.
Qed.

Lemma receive_loop_end_witness :
  is_running (self w_bob) = true
  /\ ends_loop Eof = true
  /\ connected_peers
       (self (snd (_listen_peer_messages (KStr "bob")
                     (frames [[("content", JStr "hello")]] ++ Eof :: []) w_bob)))
     = []
  /\ events (snd (_listen_peer_messages (KStr "bob")
                    (frames [[("content", JStr "hello")]] ++ Eof :: []) w_bob))
     = [peer_connected (KStr "bob");
        message (KStr "bob") (JStr "hello") JNull;
        peer_disconnected (KStr "bob")].
Proof.
  destruct (receive_loop_end (KStr "bob") [[("content", JStr "hello")]] Eof [] w_bob
              eq_refl eq_refl) as [_ [Ht [_ [He _]]]].
  split; [reflexivity|]. split; [reflexivity|]. split.
  - exact Ht.
  - apply He. reflexivity.
Defined.

(** alice has connected to bob on stream 7. *)
Definition w_dialled : world :=
  run (Connect E_ok "bob" [Frame (handshake_ack "bob")]) w_started.

(** C5. On a connection that the node dialled, the receive loop that
    [connect_to_peer] starts, reading end of stream or something that does
    not decode after any number of well-formed frames, ends, removes the
    peer's entry and reports exactly one [peer_disconnected] (when the
    callback is set), after the messages delivered.  The stream is not
    closed: the set of closed streams is as it was before the call.  Only
    the handler of an accepted connection closes its stream. *)
Theorem dialled_stream_is_never_closed
  E u response ty code body peer_info c msgs last rest w :
  http_client (self w) = Some ClientOpen ->
  get_peers E = Some (code, body) ->
  (code =? 200) = true ->
  find (fun p => String.eqb (info_username p) u)
       (filter (fun p => negb (String.eqb (info_username p) (username (self w)))) body)
  = Some peer_info ->
  open_connection E (info_host peer_info) (info_port peer_info) = Some c ->
  drain_raises E c = false ->
  py_get response "type" = inr ty ->
  eq_str ty "handshake_ack" = true ->
  is_running (self w) = true ->
  ends_loop last = true ->
  let r := connect_to_peer E u (Frame response :: frames msgs ++ last :: rest) w in
  fst r = Return true
  /\ connected_peers (self (snd r)) = dict_del (KStr u) (connected_peers (self w))
  /\ dict_contains (KStr u) (connected_peers (self (snd r))) = false
  /\ events (snd r)
     = events w
       ++ (if on_peer_connected_callback (self w) then [peer_connected (KStr u)] else [])
       ++ delivered (on_message_callback (self w)) (KStr u) msgs
       ++ (if on_peer_disconnected_callback (self w)
           then [peer_disconnected (KStr u)] else [])
  /\ closed (snd r) = closed w
  /\ (forall EB cB first wB,
        In cB (closed (snd (_handle_peer_connection EB cB
                              (first :: frames msgs ++ last :: rest) wB)))).
Proof.
  intros Hc Hpeers Hcode Hfind Hopen Hdrain Hty Heq Hrun Hend. cbv zeta.
  rewrite (connect_run E u response ty _ code body peer_info c w
             Hc Hpeers Hcode Hfind Hopen Hdrain Hty Heq).
  destruct (listen_run (KStr u) msgs last rest (joined c u w) Hrun Hend)
    as [w1 [Hl [Hs [_ [Hcl [_ [He _]]]]]]].
  unfold create_task. rewrite Hl. cbn [fst snd].
  assert (Hin : dict_contains (KStr u) (connected_peers (self w1)) = true).
  { rewrite Hs. cbn [joined self with_table connected_peers].
    apply dict_set_contains. }
  unfold dropped. rewrite Hin.
  cbn [self connected_peers with_table events closed].
  rewrite Hs, He, Hcl.
  cbn [joined self with_table connected_peers events closed
       on_message_callback on_peer_disconnected_callback].
  split; [reflexivity|]. split; [|split; [|split; [|split]]].
  - apply dict_del_set.
  - apply dict_del_contains.
  - now rewrite <- !app_assoc.
  - reflexivity.
  - intros EB cB first wB. now apply accepted_stream_is_closed.
Qed.

Lemma dialled_stream_is_never_closed_witness :
  connected_peers (self w_dialled) = [(KStr "bob", 7%nat)]
  /\ is_running (self w_started) = true
  /\ ends_loop Eof = true
  /\ fst (connect_to_peer E_ok "bob" [Frame (handshake_ack "bob"); Eof] w_started)
     = Return true
  /\ connected_peers
       (self (snd (connect_to_peer E_ok "bob" [Frame (handshake_ack "bob"); Eof] w_started)))
     = []
  /\ events (snd (connect_to_peer E_ok "bob" [Frame (handshake_ack "bob"); Eof] w_started))
     = [peer_connected (KStr "bob"); peer_disconnected (KStr "bob")]
  /\ closed (snd (connect_to_peer E_ok "bob" [Frame (handshake_ack "bob"); Eof] w_started))
     = [].
Proof.
  destruct (dialled_stream_is_never_closed E_ok "bob" (handshake_ack "bob")
              (JStr "handshake_ack") 200 [mkInfo "bob" "10.0.0.2" 5001]
              (mkInfo "bob" "10.0.0.2" 5001)
              7%nat [] Eof [] w_started
              eq_refl eq_refl eq_refl eq_refl eq_refl eq_refl eq_refl eq_refl
              eq_refl eq_refl)
    as [Hr [Ht [_ [He [Hc _]]]]].
  split; [reflexivity|]. split; [reflexivity|]. split; [reflexivity|].
  split; [exact Hr|]. split; [exact Ht|]. split; [exact He|exact Hc].
Defined.

(** carol has connected too, on stream 2; writes to stream 2 fail. *)
Definition w_two : world :=
  run (Accept E_ok 2%nat [Frame (handshake "carol")]) w_bob.

Definition E_flaky : env :=
  mkEnv true (Some "10.0.0.1") (Some 200) (Some (200, [])) (Some 200)
        (fun _ _ => None) (fun c => Nat.eqb c 2) (fun _ => false)
        "2024-01-01T00:00:00".

Lemma broadcast_sends_to_every_peer_witness :
  NoDup (map fst (connected_peers (self w_two)))
  /\ connected_peers (self w_two) = [(KStr "bob", 1%nat); (KStr "carol", 2%nat)]
  /\ written (snd (broadcast_message E_flaky "hi" w_two))
     = written w_two ++ [(1%nat, message_frame "hi" "2024-01-01T00:00:00");
                         (2%nat, message_frame "hi" "2024-01-01T00:00:00")]
  /\ fst (broadcast_message E_flaky "hi" w_two) = Return false.
Proof.
  assert (Hnd : NoDup (map fst (connected_peers (self w_two)))).
  { cbn. repeat constructor; cbn; intuition discriminate. }
  destruct (broadcast_sends_to_every_peer E_flaky "hi" w_two Hnd) as [_ [H _]].
  destruct H as [Hw [_ Hr]]; [discriminate|].
  split; [exact Hnd|]. split; [reflexivity|]. split; [exact Hw|exact Hr].
Defined.

End NodeSpec.

(* ================================================================== *)
(** * Part VI. The tracker: further properties *)
(* ================================================================== *)

Module TrackerExtra.
Import Tracker TrackerService TrackerSpec.

(** *** Heartbeats *)

(** [heartbeat] answers 404 for a username the table does not hold and
    changes nothing.  For a held username it overwrites [last_heartbeat]
    with the clock value and turns [is_active] on in that row alone, keeping
    id, host, port and creation time: an inactive peer is listed again. *)
Theorem heartbeat_revives now u db :
  constraints db ->
  (~ In u (map username db) ->
     heartbeat now (mkHeartbeatRequest u) db
     = (HTTPException 404 "Peer not found", db))
  /\ (forall p, In p db -> username p = u ->
        let beaten := mkPeer (id p) u (host p) (port p) true now (created_at p) in
        heartbeat now (mkHeartbeatRequest u) db
        = (Ok ("Heartbeat actualizado", u),
           map (fun r => if id r =? id p then beaten else r) db)
        /\ In beaten (get_active_peers (snd (heartbeat now (mkHeartbeatRequest u) db)))
        /\ length (snd (heartbeat now (mkHeartbeatRequest u) db)) = length db).
Proof.
  intros [Hi Hu]. split.
  - intros Hn. unfold heartbeat. cbn [hb_username].
    now rewrite (select_username_none u db Hn).
  - intros p Hp Hname. cbv zeta. unfold heartbeat. cbn [hb_username].
    rewrite (select_username_some u db p) by assumption. cbn [scalar_one_or_none].
    assert (Hb : set_is_active true (set_last_heartbeat now p)
                 = mkPeer (id p) u (host p) (port p) true now (created_at p)).
    { unfold set_is_active, set_last_heartbeat. cbn. now rewrite Hname. }
    rewrite Hb. cbn [username snd]. split; [reflexivity|]. split.
    + unfold get_active_peers. apply filter_In. split; [|reflexivity].
      now apply (flush_In db p).
    + apply flush_length.
Qed.

Lemma heartbeat_revives_witness :
  constraints db_two
  /\ get_active_peers (snd (heartbeat 150000000 (mkHeartbeatRequest "") db_two))
     = [ mkPeer 1 "alice" "10.0.0.1" 5000 true 0 0;
         mkPeer 2 "" "10.0.0.2" 5001 true 150000000 100000000 ]
  /\ heartbeat 150000000 (mkHeartbeatRequest "carol") db_two
     = (HTTPException 404 "Peer not found", db_two).
Proof.
  destruct (heartbeat_revives 150000000 "" db_two db_two_constraints) as [_ Hk].
  destruct (heartbeat_revives 150000000 "carol" db_two db_two_constraints) as [Hn _].
  split; [exact db_two_constraints|]. split.
  - destruct (Hk (mkPeer 2 "" "10.0.0.2" 5001 false 100000000 100000000))
      as [Hr _]; [simpl; auto|reflexivity|].
    rewrite Hr. reflexivity.
  - apply Hn. simpl. intuition discriminate.
Defined.

(** *** Uniqueness in service *)

(** The table built by a few requests. *)
Definition db_served : table :=
  serve (Sweep 200000000 2)
    (serve (Register 10 (mkPeerRegister "bob" "10.0.0.2" 5001))
       (serve (Register 0 (mkPeerRegister "alice" "10.0.0.1" 5000)) [])).

Lemma db_served_in_service : in_service db_served.
Proof. unfold db_served. repeat apply service_serve. apply service_created. Qed.

(** In every table the service reaches from the empty one, usernames and ids
    are unique, so a lookup by username finds at most one row and no
    endpoint ends in [MultipleResultsFound]: [register_peer] answers with a
    record, [heartbeat] and [unregister_peer] answer with success or 404. *)
Theorem lookups_find_at_most_one_row db :
  in_service db ->
  NoDup (map username db)
  /\ NoDup (map id db)
  /\ (forall u, (length (select_username u db) <= 1)%nat)
  /\ (forall now d, exists p, fst (register_peer now d db) = Ok p)
  /\ (forall now d,
        (exists body, fst (heartbeat now d db) = Ok body)
        \/ fst (heartbeat now d db) = HTTPException 404 "Peer not found")
  /\ (forall u,
        (exists body, fst (unregister_peer u db) = Ok body)
        \/ fst (unregister_peer u db) = HTTPException 404 "Peer not found").
Proof.
  intros H. apply in_service_constraints in H. destruct H as [Hi Hu].
  split; [assumption|]. split; [assumption|]. split; [|split; [|split]].
  - intros u. destruct (select_username_unique u db Hu) as [->|[p ->]]; simpl; lia.
  - intros now d. unfold register_peer.
    destruct (lookup_cases (reg_username d) db Hu) as [[_ ->]|[p [_ [_ ->]]]];
      eexists; reflexivity.
  - intros now d. unfold heartbeat.
    destruct (lookup_cases (hb_username d) db Hu) as [[_ ->]|[p [_ [_ ->]]]].
    + now right.
    + left. eexists. reflexivity.
  - intros u. unfold unregister_peer.
    destruct (lookup_cases u db Hu) as [[_ ->]|[p [_ [_ ->]]]].
    + now right.
    + left. eexists. reflexivity.
Qed.

Lemma lookups_find_at_most_one_row_witness :
  in_service db_served
  /\ NoDup (map username db_served)
  /\ exists p, fst (register_peer 300000000 (mkPeerRegister "bob" "10.0.0.7" 7000)
                      db_served) = Ok p.
Proof.
  destruct (lookups_find_at_most_one_row db_served db_served_in_service)
    as [Hu [_ [_ [Hr _]]]].
  split; [exact db_served_in_service|]. split; [exact Hu|].
  apply Hr.
Defined.

(** *** Sweeps over time *)

Lemma stale_later now now2 m p :
  now <= now2 -> stale now m p = true -> stale now2 m p = true.
Proof.
  unfold stale. intros Hle H. apply andb_true_iff in H as [Ha Hs].
  rewrite Ha. cbn. apply Z.ltb_lt in Hs. apply Z.ltb_lt. lia.
Qed.

Lemma sweep_row_twice now now2 m p :
  now <= now2 -> sweep_row now2 m (sweep_row now m p) = sweep_row now2 m p.
Proof.
  intros Hle. unfold sweep_row at 2. destruct (stale now m p) eqn:E; [|reflexivity].
  unfold sweep_row. rewrite (stale_later now now2 m p Hle E).
  unfold stale. cbn. reflexivity.
Qed.

Lemma stale_count_split now now2 m db :
  now <= now2 ->
  (length (filter (stale now m) db)
   + length (filter (stale now2 m) (map (sweep_row now m) db))
   = length (filter (stale now2 m) db))%nat.
Proof.
  intros Hle. induction db as [|p db IH]; [reflexivity|].
  cbn [map filter]. unfold sweep_row at 1.
  destruct (stale now m p) eqn:E.
  - rewrite (stale_later now now2 m p Hle E).
    replace (stale now2 m (set_is_active false p)) with false by reflexivity.
    cbn [length]. lia.
  - destruct (stale now2 m p); cbn [length]; lia.
Qed.

(** A sweep followed by a later sweep with the same threshold leaves the
    table that the later sweep alone would leave, and the two counts add up
    to the count of the later sweep alone. *)
Theorem later_sweep_absorbs_earlier now now2 m db :
  constraints db ->
  now <= now2 ->
  let first := cleanup_inactive_peers now m db in
  let second := cleanup_inactive_peers now2 m (snd first) in
  let alone := cleanup_inactive_peers now2 m db in
  snd second = snd alone
  /\ (fst first + fst second = fst alone)%nat.
Proof.
  intros [Hi Hu] Hle. cbv zeta.
  rewrite (cleanup_pass now m db) by assumption. cbn [fst snd].
  rewrite (cleanup_pass now2 m db) by assumption.
  rewrite cleanup_pass
    by (rewrite map_map; now rewrite (map_ext _ id) by apply sweep_row_id).
  cbn [fst snd]. split.
  - rewrite map_map. apply map_ext. intros p. now apply sweep_row_twice.
  - now apply stale_count_split.
Qed.

Lemma later_sweep_absorbs_earlier_witness :
  constraints db_two
  /\ 100000000 <= 150000000
  /\ snd (cleanup_inactive_peers 150000000 1
            (snd (cleanup_inactive_peers 100000000 1 db_two)))
     = snd (cleanup_inactive_peers 150000000 1 db_two).
Proof.
  assert (Hle : 100000000 <= 150000000) by lia.
  destruct (later_sweep_absorbs_earlier 100000000 150000000 1 db_two
              db_two_constraints Hle) as [H _].
  split; [exact db_two_constraints|]. split; [exact Hle|exact H].
Defined.

(** *** Registration, then the periodic cleanup *)

Lemma register_row now d db :
  constraints db ->
  exists peer,
    register_peer now d db = (Ok peer, snd (register_peer now d db))
    /\ In peer (snd (register_peer now d db))
    /\ username peer = reg_username d
    /\ is_active peer = true
    /\ last_heartbeat peer = now
    /\ constraints (snd (register_peer now d db)).
Proof.
  intros H. pose proof H as [Hi Hu].
  assert (Hc : constraints (snd (register_peer now d db)))
    by apply (constraints_serve (Register now d) db H).
  revert Hc. unfold register_peer.
  destruct (lookup_cases (reg_username d) db Hu) as [[Hn ->]|[p [Hp [Hx ->]]]];
    cbn [fst snd]; intros Hc; eexists; (split; [reflexivity|]);
    (split; [|cbn; auto]).
  - unfold add. apply in_app_iff. right. now left.
  - now apply (flush_In db p).
Qed.

Lemma sweep_keeps_fresh now m p db :
  In p db -> stale now m p = false -> In p (map (sweep_row now m) db).
Proof.
  intros Hp Hs. apply in_map_iff. exists p. split; [|assumption].
  now apply sweep_row_fixed.
Qed.

Lemma two_minutes : timedelta_minutes 2 = 120000000.
Proof. reflexivity. Qed.

Lemma periodic_cleanup_keeps p : forall ticks db,
  constraints db -> In p db -> is_active p = true ->
  Forall (fun now => now - last_heartbeat p <= 120000000) ticks ->
  In p (snd (periodic_cleanup ticks db))
  /\ constraints (snd (periodic_cleanup ticks db)).
Proof.
  induction ticks as [|now ticks IH]; intros db Hc Hp Ha Hticks; [now split|].
  inversion Hticks as [|? ? Hnow Hrest]; subst.
  cbn [periodic_cleanup].
  pose proof (constraints_serve (Sweep now 2) db Hc) as Hc'. cbn [serve] in Hc'.
  destruct Hc as [Hi Hu]. rewrite cleanup_pass in Hc' |- * by assumption.
  cbn [snd] in Hc'.
  assert (Hfresh : stale now 2 p = false).
  { unfold stale. rewrite Ha, two_minutes. cbn. apply Z.ltb_ge. exact Hnow. }
  destruct (IH (map (sweep_row now 2) db) Hc'
               (sweep_keeps_fresh now 2 p db Hp Hfresh) Ha Hrest) as [Hin Hcc].
  destruct (periodic_cleanup ticks (map (sweep_row now 2) db)) as [printed db''].
  now split.
Qed.

Lemma periodic_cleanup_app ticks1 ticks2 : forall db,
  snd (periodic_cleanup (ticks1 ++ ticks2) db)
  = snd (periodic_cleanup ticks2 (snd (periodic_cleanup ticks1 db))).
Proof.
  induction ticks1 as [|now ticks1 IH]; intros db; [reflexivity|].
  cbn [app periodic_cleanup].
  destruct (cleanup_inactive_peers now 2 db) as [cleaned db'].
  specialize (IH db').
  destruct (periodic_cleanup (ticks1 ++ ticks2) db') as [printed1 db1].
  destruct (periodic_cleanup ticks1 db') as [printed2 db2].
  exact IH.
Qed.

(** A peer registered at clock value [t] is listed by [get_active_peers]
    after every run of the periodic cleanup whose ticks all fall within two
    minutes of [t]; the first tick later than that takes it off the list. *)
Theorem registered_peer_lives_two_minutes t d db ticks late :
  constraints db ->
  Forall (fun now => now - t <= 120000000) ticks ->
  120000000 < late - t ->
  let db1 := snd (register_peer t d db) in
  (exists peer,
      username peer = reg_username d
      /\ In peer (get_active_peers (snd (periodic_cleanup ticks db1))))
  /\ (forall peer,
        In peer (get_active_peers (snd (periodic_cleanup (ticks ++ [late]) db1))) ->
        username peer <> reg_username d).
Proof.
  intros Hc Hticks Hlate. cbv zeta.
  destruct (register_row t d db Hc) as [p [_ [Hp [Hname [Ha [Ht Hc1]]]]]].
  assert (Hticks' : Forall (fun now => now - last_heartbeat p <= 120000000) ticks)
    by now rewrite Ht.
  destruct (periodic_cleanup_keeps p ticks _ Hc1 Hp Ha Hticks') as [Hin Hc2].
  split.
  - exists p. split; [assumption|].
    unfold get_active_peers. apply filter_In. now split.
  - intros r Hr Hru. rewrite periodic_cleanup_app in Hr.
    set (db2 := snd (periodic_cleanup ticks (snd (register_peer t d db)))) in *.
    cbn [periodic_cleanup] in Hr. destruct Hc2 as [Hi2 Hu2].
    rewrite cleanup_pass in Hr by assumption. cbn [snd app] in Hr.
    unfold get_active_peers in Hr. apply filter_In in Hr as [Hr Hon].
    apply in_map_iff in Hr as [q [Hq Hqin]].
    assert (q = p).
    { apply (same_username_same_row db2); auto.
      rewrite <- (sweep_row_username late 2 q), Hq. congruence. }
    subst q. subst r. unfold sweep_row in Hon.
    assert (Hst : stale late 2 p = true).
    { unfold stale. rewrite Ha, Ht, two_minutes. cbn. apply Z.ltb_lt. exact Hlate. }
    rewrite Hst in Hon. discriminate Hon.
Qed.

Lemma registered_peer_lives_two_minutes_witness :
  constraints db_two
  /\ Forall (fun now => now - 200000000 <= 120000000) [230000000; 260000000; 290000000]
  /\ 120000000 < 350000000 - 200000000
  /\ exists peer,
       username peer = "bob"
       /\ In peer (get_active_peers
                     (snd (periodic_cleanup [230000000; 260000000; 290000000]
                             (snd (register_peer 200000000
                                     (mkPeerRegister "bob" "10.0.0.3" 5002) db_two))))).
Proof.
  assert (Hticks : Forall (fun now => now - 200000000 <= 120000000)
                          [230000000; 260000000; 290000000])
    by (repeat constructor; lia).
  assert (Hlate : 120000000 < 350000000 - 200000000) by lia.
  destruct (registered_peer_lives_two_minutes 200000000
              (mkPeerRegister "bob" "10.0.0.3" 5002) db_two
              [230000000; 260000000; 290000000] 350000000
              db_two_constraints Hticks Hlate) as [H _].
  split; [exact db_two_constraints|]. split; [exact Hticks|]. split; [exact Hlate|].
  exact H.
Defined.

(** *** Leaving and coming back *)

(** After [unregister_peer] the peer is no longer listed; a later
    [register_peer] under the same username lists it again in the row it
    had (same id), and neither request changes the number of rows. *)
Theorem unregister_then_register_reuses_row now d db old :
  constraints db ->
  In old db ->
  username old = reg_username d ->
  let db1 := snd (unregister_peer (reg_username d) db) in
  let r := register_peer now d db1 in
  (forall p, In p (get_active_peers db1) -> username p <> reg_username d)
  /\ length db1 = length db
  /\ fst r = Ok (mkPeer (id old) (reg_username d) (reg_host d) (reg_port d)
                  true now (created_at old))
  /\ In (mkPeer (id old) (reg_username d) (reg_host d) (reg_port d)
           true now (created_at old))
        (get_active_peers (snd r))
  /\ length (snd r) = length db.
Proof.
  intros Hc Hold Hname. cbv zeta.
  pose proof (constraints_serve (Unregister (reg_username d)) db Hc) as Hc1.
  cbn [serve] in Hc1. destruct Hc as [Hi Hu]. revert Hc1.
  unfold unregister_peer.
  rewrite (select_username_some (reg_username d) db old) by assumption.
  cbn [scalar_one_or_none snd]. intros [Hi1 Hu1].
  set (off := set_is_active false old) in *.
  assert (Hoff : In off (flush off db)) by now apply (flush_In db old).
  split; [|split; [apply flush_length|]].
  - intros p Hp Hpu. unfold get_active_peers in Hp.
    apply filter_In in Hp as [Hp Hon].
    assert (p = off).
    { apply (same_username_same_row (flush off db)); auto.
      rewrite Hpu. unfold off. cbn. now symmetry. }
    subst p. discriminate Hon.
  - unfold register_peer.
    rewrite (select_username_some (reg_username d) (flush off db) off)
      by (auto; unfold off; cbn; assumption).
    cbn [scalar_one_or_none fst snd].
    assert (Hb : set_last_heartbeat now
                   (set_is_active true (set_port (reg_port d) (set_host (reg_host d) off)))
                 = mkPeer (id old) (reg_username d) (reg_host d) (reg_port d)
                          true now (created_at old)).
    { unfold set_last_heartbeat, set_is_active, set_port, set_host, off. cbn.
      now rewrite Hname. }
    rewrite Hb. split; [reflexivity|]. split.
    + unfold get_active_peers. apply filter_In. split; [|reflexivity].
      now apply (flush_In (flush off db) off).
    + now rewrite !flush_length.
Qed.

Lemma unregister_then_register_reuses_row_witness :
  constraints db_two
  /\ fst (register_peer 150000000 (mkPeerRegister "alice" "10.0.0.9" 6000)
            (snd (unregister_peer "alice" db_two)))
     = Ok (mkPeer 1 "alice" "10.0.0.9" 6000 true 150000000 0).
Proof.
  destruct (unregister_then_register_reuses_row 150000000
              (mkPeerRegister "alice" "10.0.0.9" 6000) db_two
              (mkPeer 1 "alice" "10.0.0.1" 5000 true 0 0) db_two_constraints)
    as [_ [_ [H _]]]; [simpl; auto|reflexivity|].
  split; [exact db_two_constraints|exact H].
Defined.

(** Registering the same data twice at the same clock value is registering
    it once: the second call answers with the same record and leaves the
    table of the first. *)
Theorem register_is_idempotent now d db :
  constraints db ->
  register_peer now d (snd (register_peer now d db))
  = register_peer now d db.
Proof.
  intros Hc.
  destruct (register_row now d db Hc) as [p [Hr [Hp [Hname [Ha [Ht [Hi1 Hu1]]]]]]].
  rewrite Hr at 2. set (db1 := snd (register_peer now d db)) in *.
  assert (Hsame : set_last_heartbeat now
                    (set_is_active true (set_port (reg_port d) (set_host (reg_host d) p)))
                  = p).
  { destruct Hc as [Hi Hu]. unfold db1, register_peer in Hr.
    destruct (lookup_cases (reg_username d) db Hu) as [[Hn E]|[q [Hq [Hx E]]]];
      rewrite E in Hr; cbn [fst snd] in Hr; inversion Hr as [Hpeer]; reflexivity. }
  unfold register_peer.
  rewrite (select_username_some (reg_username d) db1 p) by assumption.
  cbn [scalar_one_or_none]. rewrite Hsame.
  now rewrite flush_self.
Qed.

Lemma register_is_idempotent_witness :
  constraints db_two
  /\ register_peer 5 (mkPeerRegister "dave" "10.0.0.4" 5003)
       (snd (register_peer 5 (mkPeerRegister "dave" "10.0.0.4" 5003) db_two))
     = register_peer 5 (mkPeerRegister "dave" "10.0.0.4" 5003) db_two.
Proof.
  split; [exact db_two_constraints|].
  apply (register_is_idempotent 5 (mkPeerRegister "dave" "10.0.0.4" 5003) db_two
           db_two_constraints).
Defined.

(** *** The health check *)

(** [health_check] never reports more active peers than peers.  A sweep
    leaves the total as it is and lowers the number of active peers by
    exactly the count it returns. *)
Theorem health_after_sweep now m t db :
  constraints db ->
  let swept := cleanup_inactive_peers now m db in
  (active_peers (health_check t db) <= total_peers (health_check t db))%nat
  /\ total_peers (health_check t (snd swept)) = total_peers (health_check t db)
  /\ (active_peers (health_check t (snd swept)) + fst swept
      = active_peers (health_check t db))%nat.
Proof.
  intros [Hi Hu]. cbv zeta. rewrite cleanup_pass by assumption.
  cbn [fst snd health_check total_peers active_peers]. split; [|split].
  - apply filter_length_le.
  - apply length_map.
  - clear. induction db as [|p db IH]; [reflexivity|].
    cbn [map filter]. unfold sweep_row at 1.
    destruct (stale now m p) eqn:E.
    + assert (Ha : is_active p = true)
        by (unfold stale in E; now apply andb_true_iff in E).
      rewrite Ha. cbn [set_is_active is_active length]. lia.
    + destruct (is_active p); cbn [length]; lia.
Qed.

Lemma health_after_sweep_witness :
  constraints db_two
  /\ active_peers (health_check 0 db_two) = 1%nat
  /\ active_peers (health_check 0 (snd (cleanup_inactive_peers 150000000 2 db_two)))
     = 0%nat
  /\ total_peers (health_check 0 (snd (cleanup_inactive_peers 150000000 2 db_two)))
     = 2%nat.
Proof.
  destruct (health_after_sweep 150000000 2 0 db_two db_two_constraints)
    as [_ [Ht Ha]].
  split; [exact db_two_constraints|]. split; [reflexivity|]. split.
  - cbn in Ha |- *. lia.
  - rewrite Ht. reflexivity.
Defined.

End TrackerExtra.

(* ================================================================== *)
(** * Part VII. The node: further properties *)
(* ================================================================== *)

Module NodeExtra.
Import Node NodeSpec.

(** *** First frames that are turned away *)

Lemma not_a_handshake_is_dropped_witness :
  not_a_handshake (Frame (JDict [("type", JStr "message"); ("username", JStr "bob")])) = true
  /\ self (snd (_handle_peer_connection E_ok 1%nat
                  [Frame (JDict [("type", JStr "message"); ("username", JStr "bob")])]
                  w_started))
     = self w_started
  /\ closed (snd (_handle_peer_connection E_ok 1%nat
                    [Frame (JDict [("type", JStr "message"); ("username", JStr "bob")])]
                    w_started))
     = [1%nat].
Proof.
  destruct (not_a_handshake_is_dropped E_ok 1%nat
              (Frame (JDict [("type", JStr "message"); ("username", JStr "bob")]))
              [] w_started eq_refl) as [_ [Hs [_ [_ Hc]]]].
  split; [reflexivity|]. split; [exact Hs|exact Hc].
Defined.

(** How the [finally] of the handler leaves: [wait_closed] may raise. *)
Definition close_outcome (E : env) (c : chan) : outcome unit :=
  if wait_closed_raises E c then Raise OSError else Return tt.

Lemma unhashable_run E c hs ty u e stream w :
  py_get hs "type" = inr ty ->
  eq_str ty "handshake" = true ->
  py_get hs "username" = inr u ->
  hash u = inl e ->
  _handle_peer_connection E c (Frame hs :: stream) w
  = (close_outcome E c,
     mkWorld (self w) (listening w) (closed w ++ [c]) (written w) (events w)
             (requests w) (stdout w ++ [out_incoming c; out_peer_error e])).
Proof.
  intros Hty Heq Hun Hhash. destruct w as [n li cl wr ev rq so].
  unfold _handle_peer_connection, handler, try_finally, try_except, close,
    close_outcome.
  unfold bind at 1. cbn [print fst snd].
  unfold bind at 1. cbn [loads ret].
  unfold bind at 1. rewrite Hty. cbn [lift ret]. rewrite Heq.
  unfold bind at 1. rewrite Hun. cbn [lift ret].
  unfold bind at 1. rewrite Hhash. cbn.
  destruct (wait_closed_raises E c); cbn; now rewrite <- app_assoc.
Qed.

(** A handshake whose username is a JSON array or object cannot be a dict
    key: the [TypeError] is caught, the connection is closed, and the node
    object, the events and the frames written are as before. *)
Theorem unhashable_username_is_dropped E c hs ty u e stream w :
  py_get hs "type" = inr ty ->
  eq_str ty "handshake" = true ->
  py_get hs "username" = inr u ->
  hash u = inl e ->
  let res := _handle_peer_connection E c (Frame hs :: stream) w in
  fst res <> Await
  /\ self (snd res) = self w
  /\ events (snd res) = events w
  /\ written (snd res) = written w
  /\ closed (snd res) = closed w ++ [c].
Proof.
  intros Hty Heq Hun Hhash. cbv zeta.
  rewrite (unhashable_run E c hs ty u e stream w) by assumption.
  cbn [fst snd self events written closed]. split; [|repeat split].
  unfold close_outcome. destruct (wait_closed_raises E c); discriminate.
Qed.

Lemma unhashable_username_is_dropped_witness :
  connected_peers
    (self (snd (_handle_peer_connection E_ok 1%nat
                  [Frame (JDict [("type", JStr "handshake");
                                 ("username", JList [JStr "bob"])])] w_started)))
  = []
  /\ closed (snd (_handle_peer_connection E_ok 1%nat
                    [Frame (JDict [("type", JStr "handshake");
                                   ("username", JList [JStr "bob"])])] w_started))
     = [1%nat].
Proof.
  destruct (unhashable_username_is_dropped E_ok 1%nat
              (JDict [("type", JStr "handshake"); ("username", JList [JStr "bob"])])
              (JStr "handshake") (JList [JStr "bob"]) TypeError [] w_started
              eq_refl eq_refl eq_refl eq_refl) as [_ [Hs [_ [_ Hc]]]].
  split; [now rewrite Hs|exact Hc].
Defined.

Lemma failed_ack_run E c hs ty u k stream w :
  py_get hs "type" = inr ty ->
  eq_str ty "handshake" = true ->
  py_get hs "username" = inr u ->
  hash u = inr k ->
  drain_raises E c = true ->
  _handle_peer_connection E c (Frame hs :: stream) w
  = (close_outcome E c,
     mkWorld (with_table (dict_set k c (connected_peers (self w))) (self w))
             (listening w) (closed w ++ [c])
             (written w ++ [(c, handshake_ack (username (self w)))])
             (events w ++ if on_peer_connected_callback (self w)
                          then [peer_connected k] else [])
             (requests w)
             (stdout w ++ [out_incoming c; out_peer_connected k;
                           out_peer_error OSError])).
Proof.
  intros Hty Heq Hun Hhash Hdrain. destruct w as [n li cl wr ev rq so].
  unfold _handle_peer_connection, handler, try_finally, try_except, close,
    close_outcome.
  unfold bind at 1. cbn [print fst snd].
  unfold bind at 1. cbn [loads ret].
  unfold bind at 1. rewrite Hty. cbn [lift ret]. rewrite Heq.
  unfold bind at 1. rewrite Hun. cbn [lift ret].
  unfold bind at 1. rewrite Hhash. cbn [lift ret].
  set (L := _listen_peer_messages k stream).
  unfold bind, setitem, callback, ret, get, write, print, with_table. cbn.
  destruct (on_peer_connected_callback n); cbn; rewrite Hdrain; cbn;
    destruct (wait_closed_raises E c); cbn;
    rewrite <- ?app_assoc, ?app_nil_r; reflexivity.
Qed.

(** When the acknowledgement cannot be written, the handler closes the
    stream, but the entry it filed before writing stays in the table, now
    with a closed stream, and the observer has been told of a connection
    and of no disconnection. *)
Theorem failed_ack_leaves_closed_entry E c hs ty u k stream w :
  py_get hs "type" = inr ty ->
  eq_str ty "handshake" = true ->
  py_get hs "username" = inr u ->
  hash u = inr k ->
  drain_raises E c = true ->
  let res := _handle_peer_connection E c (Frame hs :: stream) w in
  fst res <> Await
  /\ dict_get k (connected_peers (self (snd res))) = Some c
  /\ connected_peers (self (snd res)) = dict_set k c (connected_peers (self w))
  /\ closed (snd res) = closed w ++ [c]
  /\ events (snd res)
     = events w ++ (if on_peer_connected_callback (self w)
                    then [peer_connected k] else []).
Proof.
  intros Hty Heq Hun Hhash Hdrain. cbv zeta.
  rewrite (failed_ack_run E c hs ty u k stream w) by assumption.
  cbn [fst snd self events written closed connected_peers with_table].
  split; [|split; [apply dict_set_get|repeat split]].
  unfold close_outcome. destruct (wait_closed_raises E c); discriminate.
Qed.

Definition E_mute : env :=
  mkEnv true (Some "10.0.0.1") (Some 200) (Some (200, [])) (Some 200)
        (fun _ _ => None) (fun _ => true) (fun _ => false)
        "2024-01-01T00:00:00".

Lemma failed_ack_leaves_closed_entry_witness :
  connected_peers
    (self (snd (_handle_peer_connection E_mute 1%nat [Frame (handshake "bob")] w_started)))
  = [(KStr "bob", 1%nat)]
  /\ closed (snd (_handle_peer_connection E_mute 1%nat [Frame (handshake "bob")] w_started))
     = [1%nat]
  /\ events (snd (_handle_peer_connection E_mute 1%nat [Frame (handshake "bob")] w_started))
     = [peer_connected (KStr "bob")].
Proof.
  destruct (failed_ack_leaves_closed_entry E_mute 1%nat (handshake "bob")
              (JStr "handshake") (JStr "bob") (KStr "bob") [] w_started
              eq_refl eq_refl eq_refl eq_refl eq_refl) as [_ [_ [Ht [Hc He]]]].
  split; [exact Ht|]. split; [exact Hc|exact He].
Defined.

(** *** Disconnecting *)

(** The state in which the receive loop [l] of [k], woken by the close of
    its stream [c], leaves the node: the entry is gone and the observer has
    been told. *)
Definition hung_up (E : env) (k : key) (c : chan) (l : awaiting_loop) (w : world)
  : world :=
  mkWorld (with_table (dict_del k (connected_peers (self w))) (self w))
          (listening w)
          (closed w ++ c :: match l with In_task => [] | In_handler => [c] end)
          (written w)
          (events w ++ if on_peer_disconnected_callback (self w)
                       then [peer_disconnected k] else [])
          (requests w)
          (stdout w ++ (if wait_closed_raises E c then [out_read_error k OSError] else [])
                    ++ [out_peer_disconnected k]).

Lemma close_stream_run E k c l w :
  dict_contains k (connected_peers (self w)) = true ->
  close_stream E c k (Some l) w = (close_outcome E c, hung_up E k c l w).
Proof.
  intros Hin. destruct w as [[u p t r d h m cc x s b] li cl wr ev rq so].
  cbn in Hin.
  unfold close_stream, close_outcome, hung_up, woken, handler, listener,
    create_task, try_finally, try_except, close, bind, get, delitem, print,
    callback, ret, raise, with_table.
  destruct l, (wait_closed_raises E c) eqn:Hw; cbn;
    repeat (rewrite ?Hin, ?Hw; cbn);
    destruct x; cbn; rewrite <- ?app_assoc, ?app_nil_r; reflexivity.
Qed.

(** With a receive loop on the stream. *)
Lemma disconnect_run E k c l w :
  dict_get k (connected_peers (self w)) = Some c ->
  disconnect_from_peer E k (Some l) w
  = (Return false,
     snd (print (out_disconnect_error
                   (if wait_closed_raises E c then OSError else KeyError))
                (hung_up E k c l w))).
Proof.
  intros Hget.
  assert (Hin := dict_get_present k c _ Hget).
  unfold disconnect_from_peer. unfold bind at 1. cbn [get fst snd]. rewrite Hin.
  cbn [negb]. unfold try_except. unfold bind at 1, getitem, bind at 1.
  cbn [get fst snd]. rewrite Hget. cbn [ret].
  unfold bind at 1. rewrite (close_stream_run E k c l w Hin).
  unfold close_outcome. destruct (wait_closed_raises E c); [reflexivity|].
  unfold bind at 1, delitem, bind at 1. cbn [get fst snd hung_up self with_table connected_peers].
  rewrite dict_del_contains. reflexivity.
Qed.

(** With no receive loop on the stream. *)
Lemma disconnect_alone_run E k c w :
  dict_get k (connected_peers (self w)) = Some c ->
  disconnect_from_peer E k None w
  = if wait_closed_raises E c then
      (Return false,
       mkWorld (self w) (listening w) (closed w ++ [c]) (written w) (events w)
               (requests w) (stdout w ++ [out_disconnect_error OSError]))
    else
      (Return true,
       mkWorld (with_table (dict_del k (connected_peers (self w))) (self w))
               (listening w) (closed w ++ [c]) (written w)
               (events w ++ if on_peer_disconnected_callback (self w)
                            then [peer_disconnected k] else [])
               (requests w) (stdout w ++ [out_disconnected k])).
Proof.
  intros Hget.
  assert (Hin := dict_get_present k c _ Hget).
  destruct w as [n li cl wr ev rq so]. cbn in Hget, Hin.
  unfold disconnect_from_peer, bind, get, try_except, getitem, delitem, close_stream,
    print, callback, ret, raise, with_table.
  cbn. rewrite Hin. cbn. rewrite Hget. cbn.
  destruct (wait_closed_raises E c); cbn; [reflexivity|].
  rewrite Hin. cbn.
  destruct (on_peer_disconnected_callback n); cbn; now rewrite ?app_nil_r.
Qed.

(** [disconnect_from_peer] returns False and does nothing for a peer that
    has no entry.  For a peer whose stream a receive loop is reading, the
    close wakes that loop, which removes the entry and reports the one
    [peer_disconnected]; the [del] of [disconnect_from_peer] then finds no
    entry, the KeyError is caught, and the call returns False although the
    peer has been disconnected and its stream closed.  Only for an entry
    that no receive loop serves does the call itself remove the entry,
    report the event and return True; there a close that raises leaves the
    entry in the table and nothing is reported. *)
Theorem disconnect_of_a_served_peer_returns_false E k w :
  (dict_contains k (connected_peers (self w)) = false ->
     forall loop, disconnect_from_peer E k loop w = (Return false, w))
  /\ (forall c l, dict_get k (connected_peers (self w)) = Some c ->
        let r := disconnect_from_peer E k (Some l) w in
        fst r = Return false
        /\ connected_peers (self (snd r)) = dict_del k (connected_peers (self w))
        /\ dict_contains k (connected_peers (self (snd r))) = false
        /\ events (snd r)
           = events w ++ (if on_peer_disconnected_callback (self w)
                          then [peer_disconnected k] else [])
        /\ In c (closed (snd r))
        /\ stdout (snd r)
           = stdout w
             ++ (if wait_closed_raises E c then [out_read_error k OSError] else [])
             ++ [out_peer_disconnected k;
                 out_disconnect_error
                   (if wait_closed_raises E c then OSError else KeyError)])
  /\ (forall c, dict_get k (connected_peers (self w)) = Some c ->
        let r := disconnect_from_peer E k None w in
        closed (snd r) = closed w ++ [c]
        /\ (wait_closed_raises E c = false ->
              fst r = Return true
              /\ connected_peers (self (snd r)) = dict_del k (connected_peers (self w))
              /\ dict_contains k (connected_peers (self (snd r))) = false
              /\ events (snd r)
                 = events w ++ (if on_peer_disconnected_callback (self w)
                                then [peer_disconnected k] else []))
        /\ (wait_closed_raises E c = true ->
              fst r = Return false
              /\ self (snd r) = self w
              /\ events (snd r) = events w)).
Proof.
  split; [|split].
  - intros H loop. unfold disconnect_from_peer, bind, get. cbn [fst snd].
    rewrite H. reflexivity.
  - intros c l Hget. cbv zeta. rewrite (disconnect_run E k c l w Hget).
    cbn [fst snd print hung_up self connected_peers with_table events closed stdout].
    split; [reflexivity|]. split; [reflexivity|].
    split; [apply dict_del_contains|]. split; [reflexivity|]. split.
    + apply in_app_iff. right. now left.
    + now rewrite <- !app_assoc.
  - intros c Hget. cbv zeta. rewrite (disconnect_alone_run E k c w Hget).
    destruct (wait_closed_raises E c); cbn [fst snd closed self events
                                            connected_peers with_table];
      (split; [reflexivity|]); split; intros Hw; try discriminate Hw.
    + repeat split.
    + split; [reflexivity|]. split; [reflexivity|].
      split; [apply dict_del_contains|reflexivity].
Qed.

Definition E_stuck : env :=
  mkEnv true (Some "10.0.0.1") (Some 200) (Some (200, [])) (Some 200)
        (fun _ _ => None) (fun _ => false) (fun _ => true)
        "2024-01-01T00:00:00".

(** bob is connected on stream 1, accepted by a handler whose receive loop
    awaits the next read; alice disconnects bob. *)
Lemma disconnect_of_a_served_peer_returns_false_witness :
  dict_get (KStr "bob") (connected_peers (self w_bob)) = Some 1%nat
  /\ disconnect_from_peer E_ok (KStr "carol") (Some In_handler) w_bob = (Return false, w_bob)
  /\ fst (disconnect_from_peer E_ok (KStr "bob") (Some In_handler) w_bob) = Return false
  /\ connected_peers (self (snd (disconnect_from_peer E_ok (KStr "bob") (Some In_handler) w_bob)))
     = []
  /\ events (snd (disconnect_from_peer E_ok (KStr "bob") (Some In_handler) w_bob))
     = [peer_connected (KStr "bob"); peer_disconnected (KStr "bob")]
  /\ fst (disconnect_from_peer E_stuck (KStr "bob") None w_bob) = Return false
  /\ connected_peers (self (snd (disconnect_from_peer E_stuck (KStr "bob") None w_bob)))
     = [(KStr "bob", 1%nat)].
Proof.
  destruct (disconnect_of_a_served_peer_returns_false E_ok (KStr "carol") w_bob) as [Ha _].
  destruct (disconnect_of_a_served_peer_returns_false E_ok (KStr "bob") w_bob) as [_ [Hb _]].
  destruct (disconnect_of_a_served_peer_returns_false E_stuck (KStr "bob") w_bob)
    as [_ [_ Hc]].
  destruct (Hb 1%nat In_handler eq_refl) as [Hr [Ht [_ [He _]]]].
  destruct (Hc 1%nat eq_refl) as [_ [_ Hc1]].
  destruct (Hc1 eq_refl) as [Hr' [Hs _]].
  split; [reflexivity|]. split; [now apply Ha|]. split; [exact Hr|].
  split; [exact Ht|]. split; [exact He|]. split; [exact Hr'|].
  now rewrite Hs.
Defined.

(** *** Sending, and what the other side receives *)

(** A write that fails does not disconnect the peer: [send_message] returns
    False, the entry stays, and the next [send_message] is attempted on the
    same stream. *)
Theorem failed_send_keeps_the_peer E E' k c content content' w :
  dict_get k (connected_peers (self w)) = Some c ->
  let first := send_message E k content w in
  let second := send_message E' k content' (snd first) in
  fst first = Return (negb (drain_raises E c))
  /\ connected_peers (self (snd first)) = connected_peers (self w)
  /\ fst second = Return (negb (drain_raises E' c))
  /\ written (snd second)
     = written w ++ [(c, message_frame content (utcnow E));
                     (c, message_frame content' (utcnow E'))]
  /\ closed (snd second) = closed w
  /\ events (snd second) = events w.
Proof.
  intros Hget. cbv zeta.
  destruct (send_message_connected E k c content w Hget) as [Hr [Hs [Hw [Hc He]]]].
  assert (Hget' : dict_get k (connected_peers (self (snd (send_message E k content w))))
                  = Some c) by now rewrite Hs.
  destruct (send_message_connected E' k c content' _ Hget') as [Hr' [Hs' [Hw' [Hc' He']]]].
  split; [exact Hr|]. split; [now rewrite Hs|]. split; [exact Hr'|].
  split; [|split; congruence].
  rewrite Hw', Hw, <- app_assoc. reflexivity.
Qed.

Lemma failed_send_keeps_the_peer_witness :
  dict_get (KStr "carol") (connected_peers (self w_two)) = Some 2%nat
  /\ fst (send_message E_flaky (KStr "carol") "hi" w_two) = Return false
  /\ fst (send_message E_ok (KStr "carol") "again"
            (snd (send_message E_flaky (KStr "carol") "hi" w_two)))
     = Return true.
Proof.
  destruct (failed_send_keeps_the_peer E_flaky E_ok (KStr "carol") 2%nat "hi" "again"
              w_two eq_refl) as [H1 [_ [H2 _]]].
  split; [reflexivity|]. split; [exact H1|exact H2].
Defined.

Lemma reading_waits k msgs : forall w,
  is_running (self w) = true ->
  reading k (frames msgs) w
  = (Await,
     mkWorld (self w) (listening w) (closed w) (written w)
             (events w ++ delivered (on_message_callback (self w)) k msgs)
             (requests w)
             (stdout w ++ map (fun d => out_message k (get_or_none "content" d)) msgs)).
Proof.
  induction msgs as [|d msgs IH]; intros w Hrun.
  - destruct w as [n li cl wr ev rq so]. cbn [frames map reading forever].
    unfold delivered. cbn [map]. rewrite !app_nil_r.
    replace (if on_message_callback (self (mkWorld n li cl wr ev rq so))
             then [] else []) with (@nil event) by (now destruct (on_message_callback _)).
    now rewrite app_nil_r.
  - destruct w as [n li cl wr ev rq so]. cbn in Hrun.
    cbn [frames map reading]. fold (frames msgs).
    unfold bind at 1. cbn [loads ret].
    unfold bind at 1. cbn [py_get lift ret]. fold (get_or_none "content" d).
    unfold bind at 1. cbn [print fst snd self listening closed written events requests stdout].
    unfold bind at 1. cbn [get fst snd self].
    destruct (on_message_callback n) eqn:Hcb.
    + unfold bind at 1. unfold bind at 1. cbn [py_get lift ret].
      fold (get_or_none "timestamp" d).
      cbn [callback fst snd self listening closed written events requests stdout].
      unfold bind at 1. cbn [get fst snd self]. rewrite Hrun.
      rewrite IH by assumption. cbn [self listening closed written events requests stdout].
      unfold delivered. rewrite Hcb. cbn [map]. rewrite <- !app_assoc. reflexivity.
    + unfold bind at 1. cbn [ret].
      unfold bind at 1. cbn [get fst snd self]. rewrite Hrun.
      rewrite IH by assumption. cbn [self listening closed written events requests stdout].
      unfold delivered. rewrite Hcb. cbn [map]. rewrite <- !app_assoc. reflexivity.
Qed.

Lemma listen_waits k msgs w :
  is_running (self w) = true ->
  _listen_peer_messages k (frames msgs) w = reading k (frames msgs) w.
Proof.
  intros Hrun.
  unfold _listen_peer_messages, listener, receive, try_finally, try_except.
  unfold bind at 1. cbn [get fst snd]. rewrite Hrun.
  now rewrite reading_waits by assumption.
Qed.

(** While JSON objects keep arriving, the receive loop of a running node
    goes on: it is left awaiting the next read, the node object (the peer's
    entry included) is untouched, and each frame has produced exactly one
    [on_message] call, in order, carrying the frame's "content" and
    "timestamp" (None for a field the frame lacks), whatever its "type". *)
Theorem receive_loop_delivers_in_order peer_username msgs w :
  is_running (self w) = true ->
  let r := _listen_peer_messages peer_username (frames msgs) w in
  fst r = Await
  /\ self (snd r) = self w
  /\ closed (snd r) = closed w
  /\ events (snd r)
     = events w ++ (if on_message_callback (self w)
                    then map (fun d => message peer_username
                                         (get_or_none "content" d)
                                         (get_or_none "timestamp" d)) msgs
                    else []).
Proof.
  intros Hrun. cbv zeta.
  rewrite listen_waits, reading_waits by assumption.
  cbn [fst snd self closed events]. repeat split.
Qed.

Lemma receive_loop_delivers_in_order_witness :
  is_running (self w_bob) = true
  /\ events (snd (_listen_peer_messages (KStr "bob")
                    (frames [[("content", JStr "one")];
                             [("type", JStr "handshake")];
                             [("content", JStr "two"); ("timestamp", JStr "t2")]])
                    w_bob))
     = [peer_connected (KStr "bob");
        message (KStr "bob") (JStr "one") JNull;
        message (KStr "bob") JNull JNull;
        message (KStr "bob") (JStr "two") (JStr "t2")].
Proof.
  destruct (receive_loop_delivers_in_order (KStr "bob")
              [[("content", JStr "one")]; [("type", JStr "handshake")];
               [("content", JStr "two"); ("timestamp", JStr "t2")]]
              w_bob eq_refl) as [_ [_ [_ He]]].
  split; [reflexivity|exact He].
Defined.

(** *** Asking the tracker for peers *)

(** What [get_peers_from_tracker] returns for a node object [n]. *)
Definition listed (E : env) (n : P2PNode) : list peer_info :=
  match http_client n, get_peers E with
  | Some ClientOpen, Some (status_code, body) =>
      if status_code =? 200
      then filter (fun p => negb (String.eqb (info_username p) (username n))) body
      else []
  | _, _ => []
  end.

Lemma get_peers_run E w :
  exists w',
    get_peers_from_tracker E w = (Return (listed E (self w)), w')
    /\ self w' = self w
    /\ listening w' = listening w
    /\ closed w' = closed w
    /\ written w' = written w
    /\ events w' = events w.
Proof.
  destruct w as [n li cl wr ev rq so].
  unfold get_peers_from_tracker, listed, try_except, bind, http, get. cbn.
  destruct (http_client n) as [[|]|]; cbn;
    try (eexists; split; [reflexivity|repeat split]).
  destruct (get_peers E) as [[code body]|]; cbn;
    try (eexists; split; [reflexivity|repeat split]).
  destruct (code =? 200); cbn; eexists; (split; [reflexivity|repeat split]).
Qed.

(** [get_peers_from_tracker] always returns a list, which never names the
    node itself; the list is empty when the node has no open HTTP client,
    when the request fails, and when the tracker answers with a status other
    than 200. *)
Theorem tracker_list_excludes_self E w :
  exists peers,
    fst (get_peers_from_tracker E w) = Return peers
    /\ Forall (fun p => info_username p <> username (self w)) peers
    /\ (http_client (self w) <> Some ClientOpen -> peers = [])
    /\ (get_peers E = None -> peers = [])
    /\ (forall status_code body,
          get_peers E = Some (status_code, body) -> status_code <> 200 -> peers = []).
Proof.
  destruct (get_peers_run E w) as [w' [Hr _]].
  exists (listed E (self w)). rewrite Hr. split; [reflexivity|].
  unfold listed. split; [|split; [|split]].
  - destruct (http_client (self w)) as [[|]|]; try constructor.
    destruct (get_peers E) as [[code body]|]; try constructor.
    destruct (code =? 200); try constructor.
    apply Forall_forall. intros p Hp. apply filter_In in Hp as [_ Hp].
    destruct (String.eqb_spec (info_username p) (username (self w)));
      [discriminate|assumption].
  - intros Hc. destruct (http_client (self w)) as [[|]|]; try reflexivity.
    now elim Hc.
  - intros ->. now destruct (http_client (self w)) as [[|]|].
  - intros code body -> Hcode. destruct (http_client (self w)) as [[|]|];
      try reflexivity.
    destruct (Z.eqb_spec code 200); [contradiction|reflexivity].
Qed.

(** *** Dialling *)

Lemma find_own_username E n :
  find (fun p => String.eqb (info_username p) (username n)) (listed E n) = None.
Proof.
  destruct (find _ (listed E n)) as [p|] eqn:F; [|reflexivity].
  apply find_some in F as [Hin Heq]. exfalso.
  unfold listed in Hin.
  destruct (http_client n) as [[|]|]; try contradiction.
  destruct (get_peers E) as [[code body]|]; try contradiction.
  destruct (code =? 200); try contradiction.
  apply filter_In in Hin as [_ Hin]. rewrite Heq in Hin. discriminate.
Qed.

(** A node cannot connect to itself: [connect_to_peer] given the node's own
    username returns False without dialling, whatever the tracker lists;
    nothing is written or closed, the table and the events are as before. *)
Theorem cannot_connect_to_self E reads w :
  let r := connect_to_peer E (username (self w)) reads w in
  fst r = Return false
  /\ self (snd r) = self w
  /\ written (snd r) = written w
  /\ closed (snd r) = closed w
  /\ events (snd r) = events w.
Proof.
  cbv zeta.
  assert (H : exists w', connect_to_peer E (username (self w)) reads w = (Return false, w')
                         /\ self w' = self w /\ written w' = written w
                         /\ closed w' = closed w /\ events w' = events w).
  { destruct (get_peers_run E w) as [w1 [Hr [Hs [_ [Hc [Hw He]]]]]].
    unfold connect_to_peer, try_except. unfold bind at 1. rewrite Hr.
    rewrite find_own_username. destruct w1 as [n li cl wr ev rq so].
    cbn in *. eexists. split; [reflexivity|]. cbn. auto. }
  destruct H as [w' [-> H]]. split; [reflexivity|exact H].
Qed.

(** A call of [connect_to_peer] that returns False has left no connection
    behind: the table and the events are as they were before the call. *)
Theorem failed_connect_leaves_no_entry E u reads w :
  let r := connect_to_peer E u reads w in
  fst r = Return false ->
  connected_peers (self (snd r)) = connected_peers (self w)
  /\ self (snd r) = self w
  /\ events (snd r) = events w.
Proof.
  cbv zeta.
  assert (H : forall o w', connect_to_peer E u reads w = (o, w') ->
                o = Return false -> self w' = self w /\ events w' = events w).
  { intros o w' Hrun Ho.
    destruct (get_peers_run E w) as [w1 [Hr [Hs [_ [_ [_ He]]]]]].
    unfold connect_to_peer, try_except in Hrun. unfold bind at 1 in Hrun.
    rewrite Hr in Hrun. destruct w1 as [n li cl wr ev rq so]. cbn in Hs, He.
    destruct (find _ (listed E (self w))) as [info|].
    - unfold bind at 1 in Hrun.
      destruct (open_connection E (info_host info) (info_port info)) as [c|].
      + cbn [ret] in Hrun. unfold bind at 1 in Hrun. cbn [get fst snd self] in Hrun.
        unfold bind at 1, write at 1 in Hrun. cbn in Hrun.
        destruct (drain_raises E c).
        * cbn in Hrun. inversion Hrun; subst. cbn. auto.
        * destruct reads as [|r reads'].
          { cbn in Hrun. inversion Hrun; subst. discriminate. }
          unfold bind at 1 in Hrun.
          destruct r as [| |v|]; cbn [loads raise ret] in Hrun;
            try (cbn in Hrun; inversion Hrun; subst; cbn; now auto).
          unfold bind at 1 in Hrun.
          destruct (py_get v "type") as [e|ty]; cbn [lift raise ret] in Hrun;
            try (cbn in Hrun; inversion Hrun; subst; cbn; now auto).
          destruct (eq_str ty "handshake_ack").
          { exfalso.
            set (L := _listen_peer_messages (KStr u) reads') in Hrun.
            unfold bind, setitem, callback, ret, get, print, create_task in Hrun.
            cbn in Hrun.
            destruct (on_peer_connected_callback n); cbn in Hrun;
              match type of Hrun with
              | context [L ?w0] => destruct (L w0) as [[[]|e|] w2]
              end; inversion Hrun; subst; discriminate. }
          cbn in Hrun. inversion Hrun; subst. cbn. auto.
      + cbn in Hrun. inversion Hrun; subst. cbn. auto.
    - cbn in Hrun. inversion Hrun; subst. cbn. auto. }
  intros Hf.
  destruct (connect_to_peer E u reads w) as [o w'] eqn:Hrun. cbn in Hf |- *.
  destruct (H o w' eq_refl Hf) as [Hs He].
  split; [now rewrite Hs|]. split; assumption.
Qed.

Lemma failed_connect_leaves_no_entry_witness :
  fst (connect_to_peer E_ok "bob" [Frame (JDict [("type", JStr "busy")])] w_started)
  = Return false
  /\ connected_peers
       (self (snd (connect_to_peer E_ok "bob" [Frame (JDict [("type", JStr "busy")])]
                     w_started)))
     = []
  /\ events (snd (connect_to_peer E_ok "bob" [Frame (JDict [("type", JStr "busy")])]
                    w_started))
     = [].
Proof.
  assert (Hf : fst (connect_to_peer E_ok "bob" [Frame (JDict [("type", JStr "busy")])]
                      w_started) = Return false) by reflexivity.
  destruct (failed_connect_leaves_no_entry E_ok "bob"
              [Frame (JDict [("type", JStr "busy")])] w_started Hf) as [Ht [_ He]].
  split; [exact Hf|]. split; [exact Ht|exact He].
Defined.

(** *** The handshake between two nodes *)

Lemma connect_waiting E u code body peer_info c w :
  http_client (self w) = Some ClientOpen ->
  get_peers E = Some (code, body) ->
  (code =? 200) = true ->
  find (fun p => String.eqb (info_username p) u)
       (filter (fun p => negb (String.eqb (info_username p) (username (self w)))) body)
  = Some peer_info ->
  open_connection E (info_host peer_info) (info_port peer_info) = Some c ->
  drain_raises E c = false ->
  connect_to_peer E u [] w
  = (Await,
     mkWorld (self w) (listening w) (closed w)
             (written w ++ [(c, handshake (username (self w)))])
             (events w) (requests w ++ [GET_peers]) (stdout w)).
Proof.
  intros Hc Hpeers Hcode Hfind Hopen Hdrain.
  destruct (get_peers_run E w) as [w1 [Hr _]].
  assert (Hl : listed E (self w)
               = filter (fun p => negb (String.eqb (info_username p) (username (self w))))
                        body).
  { unfold listed. now rewrite Hc, Hpeers, Hcode. }
  destruct w as [n li cl wr ev rq so]. cbn in Hc, Hfind, Hl.
  unfold connect_to_peer, try_except. unfold bind at 1.
  unfold get_peers_from_tracker, try_except, bind at 1, http, bind at 1, get.
  cbn. rewrite Hc. cbn. rewrite Hpeers. cbn. rewrite Hcode. cbn.
  rewrite Hfind. unfold bind at 1. rewrite Hopen. cbn.
  unfold bind, write. cbn. rewrite Hdrain. reflexivity.
Qed.

Lemma connect_garbled E u code body peer_info c rest w :
  http_client (self w) = Some ClientOpen ->
  get_peers E = Some (code, body) ->
  (code =? 200) = true ->
  find (fun p => String.eqb (info_username p) u)
       (filter (fun p => negb (String.eqb (info_username p) (username (self w)))) body)
  = Some peer_info ->
  open_connection E (info_host peer_info) (info_port peer_info) = Some c ->
  drain_raises E c = false ->
  connect_to_peer E u (Garbage :: rest) w
  = (Return false,
     mkWorld (self w) (listening w) (closed w)
             (written w ++ [(c, handshake (username (self w)))])
             (events w) (requests w ++ [GET_peers])
             (stdout w ++ [out_connect_error u ValueError])).
Proof.
  intros Hc Hpeers Hcode Hfind Hopen Hdrain.
  destruct w as [n li cl wr ev rq so]. cbn in Hc, Hfind.
  unfold connect_to_peer, try_except. unfold bind at 1.
  unfold get_peers_from_tracker, try_except, bind at 1, http, bind at 1, get.
  cbn. rewrite Hc. cbn. rewrite Hpeers. cbn. rewrite Hcode. cbn.
  rewrite Hfind. unfold bind at 1. rewrite Hopen. cbn.
  unfold bind, write. cbn. rewrite Hdrain. reflexivity.
Qed.

Lemma accept_garbled E c rest w :
  _handle_peer_connection E c (Garbage :: rest) w
  = (close_outcome E c,
     mkWorld (self w) (listening w) (closed w ++ [c]) (written w) (events w)
             (requests w) (stdout w ++ [out_incoming c; out_peer_error ValueError])).
Proof.
  destruct w as [n li cl wr ev rq so].
  unfold _handle_peer_connection, handler, try_finally, try_except, close,
    close_outcome, bind.
  cbn. destruct (wait_closed_raises E c); cbn; now rewrite <- app_assoc.
Qed.

(** *** One frame, one read *)

Section Transport.

(** The number of bytes of [json.dumps(v).encode()]. *)
Variable encoded_length : json -> nat.

(** What [await reader.read(n)] gives when the bytes of one written frame,
    and nothing else, wait on the stream: the frame when it has at most [n]
    bytes, else its first [n] bytes, which [json.loads] rejects. *)
Definition arriving (n : nat) (frame : json) : read :=
  if (encoded_length frame <=? n)%nat then Frame frame else Garbage.

Lemma arriving_whole n frame :
  (encoded_length frame <= n)%nat -> arriving n frame = Frame frame.
Proof. intros H. unfold arriving. now apply Nat.leb_le in H as ->. Qed.

Lemma arriving_cut n frame :
  (n < encoded_length frame)%nat -> arriving n frame = Garbage.
Proof. intros H. unfold arriving. now apply Nat.leb_gt in H as ->. Qed.

(** What [send_message] writes on one node, the receive loop of the node at
    the other end takes with [reader.read(4096)].  A frame of at most 4096
    bytes is one [on_message] call with the sender's content and timestamp,
    and the loop goes on.  A longer frame is cut at 4096 bytes, which do not
    decode: no message is delivered, the loop ends and the receiver drops
    the sender. *)
Theorem sent_message_round_trip E k c content wA from wB :
  dict_get k (connected_peers (self wA)) = Some c ->
  is_running (self wB) = true ->
  on_message_callback (self wB) = true ->
  exists frame,
    written (snd (send_message E k content wA)) = written wA ++ [(c, frame)]
    /\ frame = JDict (("type", JStr "message") :: ("content", JStr content)
                        :: ("timestamp", JStr (utcnow E)) :: nil)
    /\ ((encoded_length frame <= 4096)%nat ->
          let r := _listen_peer_messages from [arriving 4096 frame] wB in
          fst r = Await
          /\ self (snd r) = self wB
          /\ events (snd r)
             = events wB ++ [message from (JStr content) (JStr (utcnow E))])
    /\ ((4096 < encoded_length frame)%nat ->
          forall rest,
            let r := _listen_peer_messages from (arriving 4096 frame :: rest) wB in
            fst r = Return tt
            /\ dict_contains from (connected_peers (self (snd r))) = false
            /\ events (snd r)
               = events wB
                 ++ (if dict_contains from (connected_peers (self wB))
                     then if on_peer_disconnected_callback (self wB)
                          then [peer_disconnected from] else []
                     else [])).
Proof.
  intros Hget Hrun Hcb.
  destruct (send_message_connected E k c content wA Hget) as [_ [_ [Hw _]]].
  exists (message_frame content (utcnow E)). split; [exact Hw|]. split; [reflexivity|].
  split.
  - intros Hfit. cbv zeta. rewrite (arriving_whole _ _ Hfit).
    change [Frame (message_frame content (utcnow E))]
      with (frames [[("type", JStr "message"); ("content", JStr content);
                     ("timestamp", JStr (utcnow E))]]).
    rewrite listen_waits, reading_waits by assumption.
    cbn [fst snd self events]. unfold delivered. rewrite Hcb.
    repeat split.
  - intros Hlong rest. cbv zeta. rewrite (arriving_cut _ _ Hlong).
    destruct (listen_run from [] Garbage rest wB Hrun eq_refl)
      as [w1 [Hl [Hs [_ [_ [_ [He _]]]]]]].
    cbn [frames map app] in Hl. rewrite Hl. cbn [fst snd].
    unfold delivered in He. rewrite Hcb in He. cbn [map] in He.
    rewrite app_nil_r in He.
    unfold dropped. rewrite Hs.
    destruct (dict_contains from (connected_peers (self wB))) eqn:Hin;
      cbn [self connected_peers with_table events]; rewrite ?Hs, ?He.
    + split; [reflexivity|]. split; [apply dict_del_contains|reflexivity].
    + split; [reflexivity|]. split; [exact Hin|now rewrite app_nil_r].
Qed.

(** The two halves of the handshake, each taken with [reader.read(1024)].
    A node that dials [u] writes a handshake frame carrying its own username
    and awaits the answer.  The node that accepts that frame, when it has at
    most 1024 bytes, files the stream under the dialler's username and
    writes an acknowledgement; a longer handshake is cut, does not decode,
    and the connection is closed with nothing filed and nothing written.
    The dialler, reading an acknowledgement of at most 1024 bytes, returns
    True and files its stream under [u], the name it asked the tracker for;
    a longer acknowledgement is cut and the dialler returns False, files
    nothing, reports nothing and leaves its stream open. *)
Theorem handshake_round_trip E EB u code body peer_info c cB wA wB :
  http_client (self wA) = Some ClientOpen ->
  get_peers E = Some (code, body) ->
  (code =? 200) = true ->
  find (fun p => String.eqb (info_username p) u)
       (filter (fun p => negb (String.eqb (info_username p) (username (self wA)))) body)
  = Some peer_info ->
  open_connection E (info_host peer_info) (info_port peer_info) = Some c ->
  drain_raises E c = false ->
  is_running (self wA) = true ->
  is_running (self wB) = true ->
  drain_raises EB cB = false ->
  exists hs ack,
    (hs = handshake (username (self wA)) /\ ack = handshake_ack (username (self wB)))
    /\ (fst (connect_to_peer E u [] wA) = Await
        /\ written (snd (connect_to_peer E u [] wA)) = written wA ++ [(c, hs)])
    /\ ((encoded_length hs <= 1024)%nat ->
          let rB := _handle_peer_connection EB cB [arriving 1024 hs] wB in
          fst rB = Await
          /\ dict_get (KStr (username (self wA))) (connected_peers (self (snd rB)))
             = Some cB
          /\ written (snd rB) = written wB ++ [(cB, ack)])
    /\ ((1024 < encoded_length hs)%nat ->
          forall rest,
            let rB := _handle_peer_connection EB cB (arriving 1024 hs :: rest) wB in
            fst rB <> Await
            /\ self (snd rB) = self wB
            /\ events (snd rB) = events wB
            /\ written (snd rB) = written wB
            /\ closed (snd rB) = closed wB ++ [cB])
    /\ ((encoded_length ack <= 1024)%nat ->
          let rA := connect_to_peer E u [arriving 1024 ack] wA in
          fst rA = Return true
          /\ dict_get (KStr u) (connected_peers (self (snd rA))) = Some c)
    /\ ((1024 < encoded_length ack)%nat ->
          forall rest,
            let rA := connect_to_peer E u (arriving 1024 ack :: rest) wA in
            fst rA = Return false
            /\ self (snd rA) = self wA
            /\ events (snd rA) = events wA
            /\ closed (snd rA) = closed wA).
Proof.
  intros Hc Hpeers Hcode Hfind Hopen Hdrain HrunA HrunB HdrainB.
  exists (handshake (username (self wA))), (handshake_ack (username (self wB))).
  split; [split; reflexivity|]. split; [|split; [|split; [|split]]].
  - rewrite (connect_waiting E u code body peer_info c wA) by assumption.
    split; reflexivity.
  - intros Hfit. cbv zeta. rewrite (arriving_whole _ _ Hfit).
    rewrite (accept_run EB cB (handshake (username (self wA))) (JStr "handshake")
               (JStr (username (self wA))) (KStr (username (self wA))) [] wB)
      by (assumption || reflexivity).
    rewrite handler_pending by assumption. cbn [fst snd].
    split; [reflexivity|]. split; [cbn; apply dict_set_get|reflexivity].
  - intros Hlong rest. cbv zeta. rewrite (arriving_cut _ _ Hlong), accept_garbled.
    cbn [fst snd self events written closed].
    split; [|repeat split].
    unfold close_outcome. destruct (wait_closed_raises EB cB); discriminate.
  - intros Hfit. cbv zeta. rewrite (arriving_whole _ _ Hfit).
    rewrite (connect_run E u (handshake_ack (username (self wB))) (JStr "handshake_ack")
               [] code body peer_info c wA) by (assumption || reflexivity).
    unfold create_task. rewrite listen_pending by assumption. cbn [fst snd].
    split; [reflexivity|]. cbn. apply dict_set_get.
  - intros Hlong rest. cbv zeta. rewrite (arriving_cut _ _ Hlong).
    rewrite (connect_garbled E u code body peer_info c rest wA) by assumption.
    cbn [fst snd self events closed]. repeat split.
Qed.

End Transport.

(** For the examples: the encoded length of an object whose keys and values
    are strings of unaccented letters, digits and punctuation other than
    the quote and the backslash, as in [{"type": "handshake", "username":
    "alice"}]. *)
Definition plain_length (v : json) : nat :=
  match v with
  | JDict d =>
      fold_right
        (fun e n =>
           (String.length (fst e) + 4
            + match snd e with JStr s => String.length s + 2 | _ => 4 end
            + 2 + n)%nat)
        0%nat d
  | _ => 0%nat
  end.

(** A text of 4800 characters. *)
Definition long_text : string := String.concat "" (repeat "0123456789abcdef" 300).

(** bob's node, started like alice's. *)
Definition w_bob_node : world :=
  run (Start E_ok) (run (Set_callbacks true true true)
                        (init "bob" 5001 "http://localhost:8000")).

(** bob's node has accepted alice on stream 3. *)
Definition w_bob_serving : world :=
  run (Accept E_ok 3%nat [Frame (handshake "alice")]) w_bob_node.

(** alice, connected to bob on stream 7, sends; bob's node reads. *)
Lemma sent_message_round_trip_witness :
  (exists frame,
     written (snd (send_message E_ok (KStr "bob") "hello" w_dialled))
     = written w_dialled ++ [(7%nat, frame)]
     /\ plain_length frame = 75%nat
     /\ events (snd (_listen_peer_messages (KStr "alice")
                       [arriving plain_length 4096 frame] w_bob_serving))
        = [peer_connected (KStr "alice");
           message (KStr "alice") (JStr "hello") (JStr "2024-01-01T00:00:00")])
  /\ (exists frame,
        written (snd (send_message E_ok (KStr "bob") long_text w_dialled))
        = written w_dialled ++ [(7%nat, frame)]
        /\ connected_peers (self w_bob_serving) = [(KStr "alice", 3%nat)]
        /\ events (snd (_listen_peer_messages (KStr "alice")
                          [arriving plain_length 4096 frame] w_bob_serving))
           = [peer_connected (KStr "alice"); peer_disconnected (KStr "alice")]).
Proof.
  split.
  - destruct (sent_message_round_trip plain_length E_ok (KStr "bob") 7%nat "hello" w_dialled
                (KStr "alice") w_bob_serving eq_refl eq_refl eq_refl)
      as [frame [Hw [Hf [Hfit _]]]].
    exists frame. split; [exact Hw|].
    assert (Hlen : plain_length frame = 75%nat) by (rewrite Hf; reflexivity).
    split; [exact Hlen|].
    apply Hfit. rewrite Hlen. apply Nat.leb_le. reflexivity.
  - destruct (sent_message_round_trip plain_length E_ok (KStr "bob") 7%nat long_text w_dialled
                (KStr "alice") w_bob_serving eq_refl eq_refl eq_refl)
      as [frame [Hw [Hf [_ Hlong]]]].
    exists frame. split; [exact Hw|]. split; [reflexivity|].
    assert (Hlen : (4096 < plain_length frame)%nat)
      by (rewrite Hf; apply Nat.ltb_lt; vm_compute; reflexivity).
    destruct (Hlong Hlen []) as [_ [_ He]]. exact He.
Defined.

Lemma handshake_round_trip_witness :
  exists hs ack,
    written (snd (connect_to_peer E_ok "bob" [] w_started)) = [(7%nat, hs)]
    /\ plain_length hs = 42%nat
    /\ connected_peers
         (self (snd (_handle_peer_connection E_ok 3%nat [arriving plain_length 1024 hs]
                       w_bob_node)))
       = [(KStr "alice", 3%nat)]
    /\ written (snd (_handle_peer_connection E_ok 3%nat [arriving plain_length 1024 hs]
                       w_bob_node))
       = [(3%nat, ack)]
    /\ fst (connect_to_peer E_ok "bob" [arriving plain_length 1024 ack] w_started)
       = Return true.
Proof.
  destruct (handshake_round_trip plain_length E_ok E_ok "bob" 200
              [mkInfo "bob" "10.0.0.2" 5001] (mkInfo "bob" "10.0.0.2" 5001)
              7%nat 3%nat w_started w_bob_node
              eq_refl eq_refl eq_refl eq_refl eq_refl eq_refl eq_refl eq_refl eq_refl)
    as [hs [ack [[Hhs Hack] [[_ H1] [HB [_ [HA _]]]]]]].
  assert (Hlen : plain_length hs = 42%nat) by (rewrite Hhs; reflexivity).
  assert (Hlen' : plain_length ack = 44%nat) by (rewrite Hack; reflexivity).
  exists hs, ack. split; [exact H1|]. split; [exact Hlen|].
  destruct HB as [_ [_ H3]]; [rewrite Hlen; apply Nat.leb_le; reflexivity|].
  destruct HA as [H4 _]; [rewrite Hlen'; apply Nat.leb_le; reflexivity|].
  split; [|split; [exact H3|exact H4]].
  rewrite Hhs. rewrite arriving_whole by (apply Nat.leb_le; reflexivity). reflexivity.
Defined.

(** *** Starting and stopping *)

Lemma start_run E ip w :
  gethostbyname E = Some ip ->
  post_register E = Some 200 ->
  exists w',
    start E w = (Return true, w')
    /\ is_running (self w') = true
    /\ http_client (self w') = Some ClientOpen
    /\ heartbeat_task (self w') = Some Pending
    /\ server_task (self w') = Some (if start_server_ok E then Pending else Finished)
    /\ username (self w') = username (self w)
    /\ connected_peers (self w') = connected_peers (self w)
    /\ requests w'
       = requests w ++ [POST_register (username (self w)) ip (peer_port (self w))].
Proof.
  intros Hip Hpost.
  destruct w as [[u p t r d h m c x s b] li cl wr ev rq so].
  destruct E as [ok ghn post gp del oc dr wc now]. cbn in Hip, Hpost. subst ghn post.
  unfold start, register_to_tracker, _start_server, heartbeat_loop, try_except,
    create_task, bind.
  cbn. destruct ok; cbn; eexists; (split; [reflexivity|]); cbn; repeat split.
Qed.

(** A start that registers followed by a stop: [start] returns True with
    the node running and the heartbeat task pending, having sent one
    registration carrying the node's username, the resolved address and its
    port; [stop] then sends the unregistration for the same username,
    cancels the heartbeat task, closes the HTTP client and marks the node
    as not running. *)
Theorem start_then_stop E E' ip w :
  gethostbyname E = Some ip ->
  post_register E = Some 200 ->
  let started := start E w in
  let stopped := stop E' (snd started) in
  fst started = Return true
  /\ is_running (self (snd started)) = true
  /\ heartbeat_task (self (snd started)) = Some Pending
  /\ fst stopped = Return tt
  /\ requests (snd stopped)
     = requests w ++ [POST_register (username (self w)) ip (peer_port (self w));
                      DELETE_unregister (username (self w))]
  /\ is_running (self (snd stopped)) = false
  /\ heartbeat_task (self (snd stopped)) = Some Cancelled
  /\ http_client (self (snd stopped)) = Some ClientClosed.
Proof.
  intros Hip Hpost. cbv zeta.
  destruct (start_run E ip w Hip Hpost)
    as [w' [-> [Hrun [Hc [Hh [_ [Hu [_ Hq]]]]]]]].
  rewrite stop_run. cbn [fst snd self requests].
  split; [reflexivity|]. split; [assumption|]. split; [assumption|].
  split; [reflexivity|]. rewrite Hc, Hq, Hu, <- app_assoc.
  split; [reflexivity|]. unfold stopped. cbn. rewrite Hc, Hh. repeat split.
Qed.

Lemma start_then_stop_witness :
  requests (snd (stop E_ok (snd (start E_ok w_new))))
  = [POST_register "alice" "10.0.0.1" 5000; DELETE_unregister "alice"]
  /\ heartbeat_task (self (snd (stop E_ok (snd (start E_ok w_new))))) = Some Cancelled.
Proof.
  destruct (start_then_stop E_ok E_ok "10.0.0.1" w_new eq_refl eq_refl)
    as [_ [_ [_ [_ [Hq [_ [Hh _]]]]]]].
  split; [exact Hq|exact Hh].
Defined.

(** After [stop] nothing can be sent: whatever the table held, every
    [send_message] and every [broadcast_message] returns False and writes
    nothing. *)
Theorem nothing_is_sent_after_stop E E' peer_username content w :
  let w' := snd (stop E w) in
  fst (send_message E' peer_username content w') = Return false
  /\ written (snd (send_message E' peer_username content w')) = written w
  /\ fst (broadcast_message E' content w') = Return false
  /\ written (snd (broadcast_message E' content w')) = written w.
Proof.
  cbv zeta. rewrite stop_run. cbn [snd].
  unfold send_message, broadcast_message, bind, get. cbn. repeat split.
Qed.


(** *** Exceptions stay inside *)

Definition never_raises {A} (m : coro A) : Prop :=
  forall w e, fst (m w) <> Raise e.

Lemma never_raises_ret {A} (a : A) : never_raises (ret a).
Proof. intros w e. discriminate. Qed.

Lemma never_raises_get {A} (f : P2PNode -> A) : never_raises (get f).
Proof. intros w e. discriminate. Qed.

Lemma never_raises_print l : never_raises (print l).
Proof. intros w e. discriminate. Qed.

Lemma never_raises_bind {A B} (m : coro A) (k : A -> coro B) :
  never_raises m -> (forall a, never_raises (k a)) -> never_raises (bind m k).
Proof.
  intros Hm Hk w e. unfold bind. specialize (Hm w).
  destruct (m w) as [[a|e'|] w']; cbn in *; [apply Hk|now elim (Hm e')|discriminate].
Qed.

Lemma never_raises_try_except {A} (m : coro A) h :
  (forall e, never_raises (h e)) -> never_raises (try_except m h).
Proof.
  intros Hh w e. unfold try_except.
  destruct (m w) as [[a|e'|] w']; cbn; [discriminate|apply Hh|discriminate].
Qed.

Lemma never_raises_stop E : never_raises (stop E).
Proof. intros w e. rewrite stop_run. discriminate. Qed.

Lemma never_raises_listener k loop : never_raises (listener k loop).
Proof.
  intros w e. destruct (loop w) as [o w1] eqn:Hloop.
  destruct o as [[]|e'|].
  - rewrite (listener_run k loop w (Return tt) w1 Hloop); discriminate.
  - rewrite (listener_run k loop w (Raise e') w1 Hloop); discriminate.
  - unfold listener, try_finally, try_except. rewrite Hloop. discriminate.
Qed.

Ltac no_raise :=
  repeat first
    [ apply never_raises_ret | apply never_raises_get | apply never_raises_print
    | apply never_raises_stop
    | apply never_raises_try_except; intros ?
    | apply never_raises_bind; [|intros ?]
    | match goal with
      | |- never_raises (if ?b then _ else _) => destruct b
      | |- never_raises (match ?x with _ => _ end) => destruct x
      end ].

Lemma never_raises_send_message E k content : never_raises (send_message E k content).
Proof. unfold send_message. no_raise. Qed.

Lemma never_raises_send_all E peers content : never_raises (send_all E peers content).
Proof.
  induction peers as [|k peers IH]; cbn [send_all]; no_raise;
    first [apply never_raises_send_message | apply IH].
Qed.

(** No exception leaves the operations of the node: [start], [stop],
    [connect_to_peer], [send_message], [broadcast_message],
    [disconnect_from_peer], the two requests to the tracker and the receive
    loop never raise, whatever the network and the tracker do.  The handler
    of an accepted connection raises only when closing its stream does. *)
Theorem exceptions_stay_inside E w e :
  fst (start E w) <> Raise e
  /\ fst (stop E w) <> Raise e
  /\ fst (register_to_tracker E w) <> Raise e
  /\ fst (get_peers_from_tracker E w) <> Raise e
  /\ (forall u reads, fst (connect_to_peer E u reads w) <> Raise e)
  /\ (forall k content, fst (send_message E k content w) <> Raise e)
  /\ (forall content, fst (broadcast_message E content w) <> Raise e)
  /\ (forall k loop, fst (disconnect_from_peer E k loop w) <> Raise e)
  /\ (forall k reads, fst (_listen_peer_messages k reads w) <> Raise e)
  /\ (forall c reads,
        fst (_handle_peer_connection E c reads w) = Raise e ->
        wait_closed_raises E c = true).
Proof.
  repeat match goal with |- _ /\ _ => split end.
  - revert w e. change (never_raises (start E)). unfold start. no_raise.
  - apply never_raises_stop.
  - revert w e. change (never_raises (register_to_tracker E)).
    unfold register_to_tracker. no_raise.
  - revert w e. change (never_raises (get_peers_from_tracker E)).
    unfold get_peers_from_tracker. no_raise.
  - intros u reads. revert w e. change (never_raises (connect_to_peer E u reads)).
    unfold connect_to_peer. no_raise.
  - intros k content. apply never_raises_send_message.
  - intros content. revert w e. change (never_raises (broadcast_message E content)).
    unfold broadcast_message. no_raise. apply never_raises_send_all.
  - intros k loop. revert w e. change (never_raises (disconnect_from_peer E k loop)).
    unfold disconnect_from_peer. no_raise.
  - intros k reads. apply never_raises_listener.
  - intros c reads. unfold _handle_peer_connection, bind at 1. cbn [print fst snd].
    unfold handler, try_finally, try_except, close.
    match goal with
    | |- context [match ?b ?w0 with _ => _ end] => destruct (b w0) as [[[]|e'|] w1]
    end; cbn; destruct (wait_closed_raises E c); cbn; try discriminate; reflexivity.
Qed.

End NodeExtra.

(* ================================================================== *)
(** * Part VIII. The HTTP interface of the node: properties *)
(* ================================================================== *)

Module ApiExtra.
Import Node NodeSpec NodeExtra.

Lemma start_refused E w :
  registers E = false ->
  exists w', start E w = (Return false, w') /\ is_running (self w') = true.
Proof.
  intros H.
  destruct w as [[u p t r d h m c x s b] li cl wr ev rq so].
  destruct E as [ok ghn post gp del oc dr wc now]. unfold registers in H. cbn in H.
  unfold start, register_to_tracker, _start_server, try_except, create_task, bind.
  cbn.
  destruct ok, ghn as [ip|], post as [code|]; cbn;
    try (destruct (code =? 200); [discriminate|]); cbn;
    eexists; split; reflexivity.
Qed.

Lemma start_accepted E w :
  registers E = true ->
  exists w', start E w = (Return true, w') /\ is_running (self w') = true.
Proof.
  intros H.
  destruct w as [[u p t r d h m c x s b] li cl wr ev rq so].
  destruct E as [ok ghn post gp del oc dr wc now]. unfold registers in H. cbn in H.
  unfold start, register_to_tracker, _start_server, heartbeat_loop, try_except,
    create_task, bind.
  cbn.
  destruct ok, ghn as [ip|], post as [code|]; cbn; try discriminate H;
    rewrite H; cbn; eexists; split; reflexivity.
Qed.

(** When the registration fails, [POST /start] answers 500 and keeps the
    node it built, still marked as running: every later [POST /start] is
    refused with 400 "Nodo ya está corriendo", whatever the tracker does by
    then, until [POST /stop] has discarded the node; after that a start that
    registers answers "started". *)
Theorem failed_start_blocks_restart E request :
  registers E = false ->
  exists w,
    Api.start_node E request None
    = (Return (Api.HTTPException 500 "Error iniciando nodo"), Some w)
    /\ (forall E' request',
          Api.start_node E' request' (Some w)
          = (Return (Api.HTTPException 400 "Nodo ya está corriendo"), Some w))
    /\ (forall E', Api.stop_node E' (Some w) = (Return (Api.Body "stopped"), None))
    /\ (forall E' request',
          registers E' = true ->
          fst (Api.start_node E' request' None)
          = Return (Api.Body ("started", Api.start_username request'))).
Proof.
  intros H. unfold Api.start_node at 1. cbn [negb].
  destruct (start_refused E
              (snd (set_callbacks true true true
                      (init (Api.start_username request) (Api.start_port request)
                            (Api.start_tracker_url request)))) H) as [w [Hs Hrun]].
  exists w. split; [|split; [|split]].
  - cbn zeta. rewrite Hs. reflexivity.
  - intros E' request'. unfold Api.start_node. now rewrite Hrun.
  - intros E'. unfold Api.stop_node. now rewrite stop_run.
  - intros E' request' H'. unfold Api.start_node. cbn zeta.
    destruct (start_accepted E'
                (snd (set_callbacks true true true
                        (init (Api.start_username request') (Api.start_port request')
                              (Api.start_tracker_url request')))) H') as [w' [Hs' _]].
    now rewrite Hs'.
Qed.

Lemma failed_start_blocks_restart_witness :
  registers E_down = false
  /\ exists w,
       Api.start_node E_down (Api.mkStart "alice" 5000 "http://localhost:8000") None
       = (Return (Api.HTTPException 500 "Error iniciando nodo"), Some w)
       /\ Api.start_node E_ok (Api.mkStart "alice" 5000 "http://localhost:8000") (Some w)
          = (Return (Api.HTTPException 400 "Nodo ya está corriendo"), Some w).
Proof.
  split; [reflexivity|].
  destruct (failed_start_blocks_restart E_down
              (Api.mkStart "alice" 5000 "http://localhost:8000") eq_refl)
    as [w [H1 [H2 _]]].
  exists w. split; [exact H1|apply H2].
Defined.

(** [POST /send] answers "sent" exactly when the peer has an entry and the
    write goes through.  A peer that is not connected and a write that
    fails get the same answer, 400 "Error enviando mensaje", and in both
    cases the table is left as it is. *)
Theorem send_endpoint_has_one_failure E request w :
  let k := KStr (Api.send_peer_username request) in
  let r := Api.send_message E request (Some w) in
  fst r
  = Return (match dict_get k (connected_peers (self w)) with
            | Some c => if drain_raises E c
                        then Api.HTTPException 400 "Error enviando mensaje"
                        else Api.Body "sent"
            | None => Api.HTTPException 400 "Error enviando mensaje"
            end)
  /\ exists w', snd r = Some w'
                /\ connected_peers (self w') = connected_peers (self w).
Proof.
  cbv zeta. unfold Api.send_message.
  destruct (dict_get (KStr (Api.send_peer_username request)) (connected_peers (self w)))
    as [c|] eqn:Hget.
  - destruct (send_message_connected E _ c (Api.send_content request) w Hget)
      as [Hr [Hs _]].
    destruct (Node.send_message E (KStr (Api.send_peer_username request))
                (Api.send_content request) w) as [o w'].
    cbn [fst snd] in Hr, Hs. subst o. cbn [Api.awaiting fst snd]. split.
    + now destruct (drain_raises E c).
    + exists w'. now rewrite Hs.
  - assert (Hin : dict_contains (KStr (Api.send_peer_username request))
                                (connected_peers (self w)) = false).
    { destruct (dict_contains _ (connected_peers (self w))) eqn:Hc; [|reflexivity].
      apply dict_contains_In in Hc. exfalso.
      revert Hget Hc. generalize (connected_peers (self w)).
      induction l as [|[k' c'] l IH]; cbn; [tauto|].
      destruct (key_eqb_spec k' (KStr (Api.send_peer_username request))) as [->|Hne];
        [discriminate|].
      intros Hg [Heq|Hl]; [contradiction|now apply IH]. }
    unfold Node.send_message, bind, get. cbn [fst snd]. rewrite Hin.
    cbn. split; [reflexivity|]. eexists. split; reflexivity.
Qed.

(** A connection seen through the endpoints: when the dial and the
    handshake succeed, [POST /connect] answers "connected" and
    [GET /connected-peers] then lists the peer.  [DELETE /disconnect] of
    that peer closes the stream, which wakes the receive loop that
    [connect_to_peer] started; the loop removes the entry and reports
    [peer_disconnected], and the endpoint answers 400 "Peer no conectado",
    whether or not [wait_closed] raises.  The peer is no longer listed. *)
Theorem connect_then_list_then_disconnect
  E E' u response ty code body peer_info c w :
  http_client (self w) = Some ClientOpen ->
  Node.get_peers E = Some (code, body) ->
  (code =? 200) = true ->
  find (fun p => String.eqb (info_username p) u)
       (filter (fun p => negb (String.eqb (info_username p) (username (self w)))) body)
  = Some peer_info ->
  open_connection E (info_host peer_info) (info_port peer_info) = Some c ->
  drain_raises E c = false ->
  py_get response "type" = inr ty ->
  eq_str ty "handshake_ack" = true ->
  is_running (self w) = true ->
  exists app1 w2 peers1 peers2,
    Api.connect_to_peer E u [Frame response] (Some w)
    = (Return (Api.Body ("connected", u)), app1)
    /\ Api.get_connected_peers app1 = (Return (Api.Body peers1), app1)
    /\ In (KStr u) peers1
    /\ Api.disconnect_peer E' u (Some In_task) app1
       = (Return (Api.HTTPException 400 "Peer no conectado"), Some w2)
    /\ Api.get_connected_peers (Some w2) = (Return (Api.Body peers2), Some w2)
    /\ ~ In (KStr u) peers2
    /\ In c (closed w2)
    /\ events w2
       = events w
         ++ (if on_peer_connected_callback (self w) then [peer_connected (KStr u)] else [])
         ++ (if on_peer_disconnected_callback (self w)
             then [peer_disconnected (KStr u)] else []).
Proof.
  intros Hc Hpeers Hcode Hfind Hopen Hdrain Hty Heq Hrun.
  unfold Api.connect_to_peer.
  rewrite (connect_run E u response ty [] code body peer_info c w) by assumption.
  unfold create_task. rewrite listen_pending by assumption.
  cbn [fst snd Api.awaiting].
  set (w1 := joined c u w).
  assert (Hget : dict_get (KStr u) (connected_peers (self w1)) = Some c)
    by (cbn; apply dict_set_get).
  exists (Some w1). unfold Api.disconnect_peer.
  rewrite (disconnect_run E' (KStr u) c In_task w1 Hget).
  cbn [fst snd Api.awaiting].
  eexists. eexists. eexists.
  split; [reflexivity|]. split; [reflexivity|].
  split; [|split; [reflexivity|split; [reflexivity|split; [|split]]]].
  - apply dict_contains_In. apply (dict_get_present _ c). exact Hget.
  - cbn [print snd hung_up self connected_peers with_table]. intros Hin.
    apply dict_contains_In in Hin. rewrite dict_del_contains in Hin. discriminate.
  - cbn [print snd hung_up closed]. apply in_app_iff. right. now left.
  - cbn [print snd hung_up events]. subst w1.
    cbn [joined events self with_table on_peer_disconnected_callback].
    now rewrite <- app_assoc.
Qed.

Lemma connect_then_list_then_disconnect_witness :
  exists app1 w2,
    Api.connect_to_peer E_ok "bob" [Frame (handshake_ack "bob")] (Some w_started)
    = (Return (Api.Body ("connected", "bob")), app1)
    /\ Api.get_connected_peers app1 = (Return (Api.Body [KStr "bob"]), app1)
    /\ Api.disconnect_peer E_ok "bob" (Some In_task) app1
       = (Return (Api.HTTPException 400 "Peer no conectado"), Some w2)
    /\ Api.get_connected_peers (Some w2) = (Return (Api.Body []), Some w2)
    /\ events w2 = [peer_connected (KStr "bob"); peer_disconnected (KStr "bob")].
Proof.
  destruct (connect_then_list_then_disconnect E_ok E_ok "bob" (handshake_ack "bob")
              (JStr "handshake_ack") 200 [mkInfo "bob" "10.0.0.2" 5001]
              (mkInfo "bob" "10.0.0.2" 5001) 7%nat w_started
              eq_refl eq_refl eq_refl eq_refl eq_refl eq_refl eq_refl eq_refl
              eq_refl)
    as [app1 [w2 [peers1 [peers2 [H1 [H2 [_ [H3 [H4 [_ [_ He]]]]]]]]]]].
  exists app1, w2. split; [exact H1|].
  cbn in H1. inversion H1 as [Ha]. subst app1.
  split; [reflexivity|]. split; [exact H3|].
  cbn in H3. inversion H3 as [Hb]. subst w2. split; reflexivity.
Defined.

Lemma send_endpoint_has_one_failure_witness :
  fst (Api.send_message E_flaky (Api.mkSend "carol" "hi") (Some w_two))
  = Return (Api.HTTPException 400 "Error enviando mensaje")
  /\ fst (Api.send_message E_flaky (Api.mkSend "dave" "hi") (Some w_two))
     = Return (Api.HTTPException 400 "Error enviando mensaje")
  /\ fst (Api.send_message E_flaky (Api.mkSend "bob" "hi") (Some w_two))
     = Return (Api.Body "sent").
Proof.
  destruct (send_endpoint_has_one_failure E_flaky (Api.mkSend "carol" "hi") w_two) as [H1 _].
  destruct (send_endpoint_has_one_failure E_flaky (Api.mkSend "dave" "hi") w_two) as [H2 _].
  destruct (send_endpoint_has_one_failure E_flaky (Api.mkSend "bob" "hi") w_two) as [H3 _].
  split; [exact H1|]. split; [exact H2|exact H3].
Defined.

End ApiExtra.
